(** * Frustum side planes: a model of [frustum_math.py]

    The script derives the normals of the four side planes of a perspective
    frustum from a camera pose, with a quaternion rotation helper.

    The main model is in exact arithmetic: floating point numbers are the
    real numbers of the Standard Library, and the one floating point effect
    it keeps is the division of a zero array by its zero norm, which numpy
    answers with a warning and an array of [nan].  The doubles of the script
    follow this model up to rounding as long as no square overflows or
    underflows and no cross product is taken of nearly parallel vectors;
    [well_conditioned] names such inputs, and the statements about the basis
    and the normals of [find_planes] are made for them.  Outside, the script
    and the exact model part ways: lines 28 to 32 are therefore modelled a
    second time, in binary64 with the primitive floats, to show where. *)

From Stdlib Require Import PrimFloat.
From Stdlib Require Import Reals Lra Psatz List RNsatz.
Import ListNotations.

#[local] Set Warnings "-inexact-float".

Open Scope R_scope.

(** ** Three-component arrays *)

Record Vec3 : Type := mkVec3 { vx : R; vy : R; vz : R }.

Definition vadd (a b : Vec3) : Vec3 :=
  mkVec3 (vx a + vx b) (vy a + vy b) (vz a + vz b).

(** [v * s] for an array [v] and a scalar [s]. *)
Definition vscale (v : Vec3) (s : R) : Vec3 :=
  mkVec3 (vx v * s) (vy v * s) (vz v * s).

(** [np.dot] on two arrays of length three. *)
Definition dot (a b : Vec3) : R :=
  vx a * vx b + vy a * vy b + vz a * vz b.

(** [np.cross] on two arrays of length three. *)
Definition cross (a b : Vec3) : Vec3 :=
  mkVec3 (vy a * vz b - vz a * vy b)
         (vz a * vx b - vx a * vz b)
         (vx a * vy b - vy a * vx b).

(** [np.linalg.norm]. *)
Definition norm (v : Vec3) : R := sqrt (dot v v).

Definition vzero : Vec3 := mkVec3 0 0 0.

(** ** Quaternions

    [from_axis_angle] returns the Python list [[x, y, z, w]]; the record
    keeps the four positions [q[0]] .. [q[3]]. *)

Record Quat : Type := mkQuat { q0 : R; q1 : R; q2 : R; q3 : R }.

Definition from_axis_angle (axis : Vec3) (angle : R) : Quat :=
  let s := sin (angle / 2) in
  let c := cos (angle / 2) in
  let scalar := c in
  let vector := vscale axis s in
  mkQuat (vx vector) (vy vector) (vz vector) scalar.

Definition mul_quat_vec (q : Quat) (v : Vec3) : Vec3 :=
  let vec := mkVec3 (q0 q) (q1 q) (q2 q) in
  let tmp := vadd (cross vec v) (vscale v (q3 q)) in
  vadd (vscale (cross vec tmp) 2) v.

(** Sum of the squares of the four components. *)
Definition quat_norm_sq (q : Quat) : R :=
  q0 q * q0 q + q1 q * q1 q + q2 q * q2 q + q3 q * q3 q.

(** ** Arrays that may hold [nan]

    The script divides an array only by its own norm.  In real arithmetic
    that norm is zero for the zero array alone, where numpy computes [0/0]:
    it emits a RuntimeWarning, raises nothing, and the quotient is [nan] in
    every position.  [None] stands for such an array; arithmetic with a [nan]
    operand is [nan] again, so every operation below propagates [None]. *)

Definition ndarray : Type := option Vec3.

Definition nan_map {A B : Type} (f : A -> B) (x : option A) : option B :=
  match x with
  | Some a => Some (f a)
  | None => None
  end.

Definition nan_map2 {A B C : Type} (f : A -> B -> C)
  (x : option A) (y : option B) : option C :=
  match x, y with
  | Some a, Some b => Some (f a b)
  | _, _ => None
  end.

Definition nan_bind {A B : Type} (x : option A) (f : A -> option B) : option B :=
  match x with
  | Some a => f a
  | None => None
  end.

(** [v / np.linalg.norm(v)], and the in-place [v /= np.linalg.norm(v)]. *)
Definition div_by_norm (v : Vec3) : ndarray :=
  if Req_dec_T (norm v) 0 then None
  else Some (mkVec3 (vx v / norm v) (vy v / norm v) (vz v / norm v)).

(** [np.deg2rad]. *)
Definition deg2rad (x : R) : R := x * (PI / 180).

(** ** The run of [find_planes]

    The function has no [return] and no [raise]: it prints and plots what it
    computed and falls off its end, so the call evaluates to [None]. *)

Inductive py_exception : Type :=
| InvalidArgument
| OtherException.

Inductive py_result : Type :=
| PyNone
| PyRaise (e : py_exception).

(** The coefficients [a, b, c] and [d] of a plane [a x + b y + c z = d]. *)
Record Plane : Type := mkPlane { normal : Vec3; offset : R }.

(** What a call computes: the locals that are printed or drawn, the two
    offsets [d] that are formed (for the top and the bottom normal; the
    lines forming them for left and right are commented out), the
    wireframes passed to [plot_wireframe], and how the call ends. *)
Record FrustumRun : Type := mkRun {
  position : Vec3;
  front : ndarray;
  up_norm : ndarray;
  right : ndarray;
  half_fov_rad : R;
  half_fov_h_rad : R;
  top_normal : ndarray;
  bottom_normal : ndarray;
  left_normal : ndarray;
  right_normal : ndarray;
  top_d : option R;
  bottom_d : option R;
  wireframes : list Plane;
  result : py_result
}.

(** [if abs(c) > 1e-6: ... ax.plot_wireframe(...)]; a comparison with [nan]
    is false. *)
Definition wireframe (n : ndarray) (d : option R) : list Plane :=
  match n, d with
  | Some n', Some d' =>
      if Rgt_dec (Rabs (vz n')) 1e-6 then [mkPlane n' d'] else []
  | _, _ => []
  end.

Definition find_planes (eye target up : Vec3) (aspect fovy znear zfar : R)
  : FrustumRun :=
  let position := eye in
  let front := div_by_norm target in
  let up_norm := div_by_norm up in
  let right := nan_map2 cross front up_norm in
  let right := nan_bind right div_by_norm in
  let half_fov_rad := deg2rad fovy * 0.5 in
  let half_fov_h_rad := atan (tan half_fov_rad * aspect) in
  (* top *)
  let first_rotation := nan_map (fun a => from_axis_angle a half_fov_rad) right in
  let top_direction := nan_map2 mul_quat_vec first_rotation front in
  let second_rotation := nan_map (fun a => from_axis_angle a (- PI / 2)) right in
  let top_normal := nan_map2 mul_quat_vec second_rotation top_direction in
  let top_normal := nan_bind top_normal div_by_norm in
  (* bottom *)
  let first_rotation := nan_map (fun a => from_axis_angle a (- half_fov_rad)) right in
  let bottom_direction := nan_map2 mul_quat_vec first_rotation front in
  let second_rotation := nan_map (fun a => from_axis_angle a (PI / 2)) right in
  let bottom_normal := nan_map2 mul_quat_vec second_rotation bottom_direction in
  let bottom_normal := nan_bind bottom_normal div_by_norm in
  (* left *)
  let left_edge_rotation :=
    nan_map (fun a => from_axis_angle a half_fov_h_rad) up_norm in
  let left_edge_direction := nan_map2 mul_quat_vec left_edge_rotation front in
  let left_normal := nan_map2 cross left_edge_direction up_norm in
  let left_normal := nan_bind left_normal div_by_norm in
  (* right *)
  let right_edge_rotation :=
    nan_map (fun a => from_axis_angle a (- half_fov_h_rad)) up_norm in
  let right_edge_direction := nan_map2 mul_quat_vec right_edge_rotation front in
  let right_normal := nan_map2 cross right_edge_direction up_norm in
  let right_normal := nan_bind right_normal div_by_norm in
  (* the two planes that are drawn *)
  let d_top := nan_map (fun n => dot n position) top_normal in
  let d_bottom := nan_map (fun n => dot n position) bottom_normal in
  mkRun position front up_norm right half_fov_rad half_fov_h_rad
        top_normal bottom_normal left_normal right_normal
        d_top d_bottom
        (wireframe top_normal d_top ++ wireframe bottom_normal d_bottom)
        PyNone.




(** The inputs the specification calls valid. *)
Definition parallel (a b : Vec3) : Prop := cross a b = vzero.

Definition valid_input (view_direction world_up : Vec3) (aspect fovy : R)
  : Prop :=
  view_direction <> vzero /\
  world_up <> vzero /\
  ~ parallel view_direction world_up /\
  0 < aspect /\
  0 < fovy < 180.

(** ** The cross-product path to the top and bottom normals

    The lines of [find_planes] that are commented out take the normal of the
    top plane as [cross(top_edge_direction, right)] and of the bottom plane
    as [cross(right, bottom_edge_direction)], as the left and right planes
    still do. *)

Definition top_normal_rotated (right front : Vec3) (half_fov_rad : R) : ndarray :=
  let first_rotation := from_axis_angle right half_fov_rad in
  let top_direction := mul_quat_vec first_rotation front in
  let second_rotation := from_axis_angle right (- PI / 2) in
  div_by_norm (mul_quat_vec second_rotation top_direction).

Definition top_normal_crossed (right front : Vec3) (half_fov_rad : R) : ndarray :=
  let top_edge_rotation := from_axis_angle right half_fov_rad in
  let top_edge_direction := mul_quat_vec top_edge_rotation front in
  div_by_norm (cross top_edge_direction right).

Definition bottom_normal_rotated (right front : Vec3) (half_fov_rad : R) : ndarray :=
  let first_rotation := from_axis_angle right (- half_fov_rad) in
  let bottom_direction := mul_quat_vec first_rotation front in
  let second_rotation := from_axis_angle right (PI / 2) in
  div_by_norm (mul_quat_vec second_rotation bottom_direction).

Definition bottom_normal_crossed (right front : Vec3) (half_fov_rad : R) : ndarray :=
  let bottom_edge_rotation := from_axis_angle right (- half_fov_rad) in
  let bottom_edge_direction := mul_quat_vec bottom_edge_rotation front in
  div_by_norm (cross right bottom_edge_direction).

Definition orthonormal (front up right : Vec3) : Prop :=
  norm front = 1 /\ norm up = 1 /\ norm right = 1 /\
  dot front up = 0 /\ dot front right = 0 /\ dot up right = 0.


(** Componentwise agreement of two arrays up to [tol]. *)
Definition approx (tol : R) (a b : Vec3) : Prop :=
  Rabs (vx a - vx b) <= tol /\
  Rabs (vy a - vy b) <= tol /\
  Rabs (vz a - vz b) <= tol.

(** The call at the bottom of the script. *)
Definition main_eye : Vec3 := mkVec3 10 10 10.
Definition main_target : Vec3 := mkVec3 (-0.57735026) (-0.57735026) (-0.57735026).
Definition main_up : Vec3 := mkVec3 0 1 0.
Definition main_run : FrustumRun :=
  find_planes main_eye main_target main_up 1.8695229 90 0.1 100.

(** ** Reference formulas

    Rodrigues' formula for the rotation of [v] by the angle [theta] about
    the unit axis [a], counter-clockwise when seen from the tip of [a]. *)
Definition rodrigues (a : Vec3) (theta : R) (v : Vec3) : Vec3 :=
  vadd (vadd (vscale v (cos theta)) (vscale (cross a v) (sin theta)))
       (vscale a (dot a v * (1 - cos theta))).


(** ** Well-conditioned inputs

    The lengths of both vectors are far from the overflow and underflow of
    their squares, and the sine of the angle between them is at least a
    thousandth. *)
Definition well_scaled (v : Vec3) : Prop :=
  1e-100 <= norm v <= 1e100.

Definition well_conditioned (view_direction world_up : Vec3) : Prop :=
  well_scaled view_direction /\
  well_scaled world_up /\
  1e-3 * (norm view_direction * norm world_up)
    <= norm (cross view_direction world_up).

(** A field of view and an aspect ratio away from their limits. *)
Definition well_framed (aspect fovy : R) : Prop :=
  1e-3 <= aspect <= 1e3 /\ 1 <= fovy <= 179.


(** ** Lines 28 to 32 in binary64

    The camera basis once more, with the doubles of the script:
    [np.linalg.norm] is the square root of [x.dot(x)], [np.cross] rounds each
    product before it subtracts, and [/] divides position by position. *)

Record F64Vec3 : Type := mkF64Vec3 { fx : float; fy : float; fz : float }.

Definition f64_dot (a b : F64Vec3) : float :=
  (fx a * fx b + fy a * fy b + fz a * fz b)%float.

Definition f64_norm (v : F64Vec3) : float := PrimFloat.sqrt (f64_dot v v).

Definition f64_div (v : F64Vec3) (s : float) : F64Vec3 :=
  mkF64Vec3 (fx v / s)%float (fy v / s)%float (fz v / s)%float.

Definition f64_cross (a b : F64Vec3) : F64Vec3 :=
  mkF64Vec3 (fy a * fz b - fz a * fy b)%float
            (fz a * fx b - fx a * fz b)%float
            (fx a * fy b - fy a * fx b)%float.

Record F64Basis : Type := mkF64Basis {
  f64_front : F64Vec3;
  f64_up_norm : F64Vec3;
  f64_right : F64Vec3
}.

Definition f64_basis (target up : F64Vec3) : F64Basis :=
  let front := f64_div target (f64_norm target) in
  let up_norm := f64_div up (f64_norm up) in
  let right := f64_cross front up_norm in
  let right := f64_div right (f64_norm right) in
  mkF64Basis front up_norm right.

(** [abs(a - b) <= tol] on doubles; false as soon as a [nan] is involved. *)
Definition f64_within (tol a b : float) : bool :=
  (PrimFloat.abs (a - b) <=? tol)%float.

(** * Properties *)

Lemma dot_self_nonneg (v : Vec3) : 0 <= dot v v.
Proof. unfold dot. nra. Qed.

Lemma norm_sq (v : Vec3) : norm v * norm v = dot v v.
Proof. unfold norm. apply sqrt_sqrt, dot_self_nonneg. Qed.

Lemma norm_one_dot (v : Vec3) : norm v = 1 -> dot v v = 1.
Proof. intros H. rewrite <- norm_sq, H. ring. Qed.

Lemma sin_cos_half_sq (t : R) :
  sin t * sin t + cos t * cos t = 1.
Proof. generalize (sin2_cos2 t). unfold Rsqr. trivial. Qed.

(** The squared length after a rotation, as a polynomial identity in the
    axis [a], the half-angle sine [s] and cosine [c]. *)
Lemma rot_dot_poly (ax ay az s c x y z : R) :
  ax * ax + ay * ay + az * az = 1 ->
  s * s + c * c = 1 ->
  let q := mkQuat (ax * s) (ay * s) (az * s) c in
  let v := mkVec3 x y z in
  dot (mul_quat_vec q v) (mul_quat_vec q v) = dot v v.
Proof.
  intros Ha Hsc; cbv [mul_quat_vec dot cross vadd vscale vx vy vz q0 q1 q2 q3].
  nsatz.
Qed.

(** Rotating by the quaternion of a unit axis keeps the squared length. *)
Lemma mul_quat_vec_dot (a : Vec3) (theta : R) (v : Vec3) :
  norm a = 1 ->
  dot (mul_quat_vec (from_axis_angle a theta) v)
      (mul_quat_vec (from_axis_angle a theta) v) = dot v v.
Proof.
  intros Ha. apply norm_one_dot in Ha.
  destruct a as [ax ay az], v as [x y z].
  unfold from_axis_angle, vscale; cbn [vx vy vz].
  apply rot_dot_poly.
  - exact Ha.
  - apply sin_cos_half_sq.
Qed.

Lemma mul_quat_vec_norm (a : Vec3) (theta : R) (v : Vec3) :
  norm a = 1 ->
  norm (mul_quat_vec (from_axis_angle a theta) v) = norm v.
Proof.
  intros Ha. unfold norm. now rewrite mul_quat_vec_dot.
Qed.

(** Undoing a rotation, as polynomial identities. *)
Lemma rot_inverse_poly (ax ay az s c x y z : R) :
  ax * ax + ay * ay + az * az = 1 ->
  s * s + c * c = 1 ->
  let q := mkQuat (ax * s) (ay * s) (az * s) c in
  let q' := mkQuat (ax * - s) (ay * - s) (az * - s) c in
  mul_quat_vec q' (mul_quat_vec q (mkVec3 x y z)) = mkVec3 x y z.
Proof.
  intros Ha Hsc; cbv [mul_quat_vec dot cross vadd vscale vx vy vz q0 q1 q2 q3].
  f_equal; nsatz.
Qed.

(** ** The quaternion helper *)

(** C10: the quaternion built by [from_axis_angle] from an axis of length
    one has unit norm, at every angle: the squares of its four components
    sum to one. *)
Theorem from_axis_angle_unit (a : Vec3) (theta : R) :
  norm a = 1 ->
  quat_norm_sq (from_axis_angle a theta) = 1.
Proof.
  intros Ha. apply norm_one_dot in Ha.
  pose proof (sin_cos_half_sq (theta / 2)) as Hsc.
  destruct a as [ax ay az].
  unfold quat_norm_sq, from_axis_angle, vscale, dot in *; cbn [vx vy vz q0 q1 q2 q3] in *.
  nsatz.
Qed.

(** C3: rotating a vector by the quaternion of a unit axis and any angle
    keeps its Euclidean length. *)
Theorem mul_quat_vec_preserves_length (a : Vec3) (theta : R) (v : Vec3) :
  norm a = 1 ->
  norm (mul_quat_vec (from_axis_angle a theta) v) = norm v.
Proof.
  intros Ha. now apply mul_quat_vec_norm.
Qed.

(** C4: rotating by [theta] about a unit axis and then by [- theta] about
    the same axis gives the vector back. *)
Theorem mul_quat_vec_inverse (a : Vec3) (theta : R) (v : Vec3) :
  norm a = 1 ->
  mul_quat_vec (from_axis_angle a (- theta))
               (mul_quat_vec (from_axis_angle a theta) v) = v.
Proof.
  intros Ha. apply norm_one_dot in Ha.
  destruct a as [ax ay az], v as [x y z].
  unfold from_axis_angle, vscale, dot in *; cbn [vx vy vz] in *.
  replace (- theta / 2) with (- (theta / 2)) by lra.
  rewrite sin_neg, cos_neg.
  apply rot_inverse_poly.
  - exact Ha.
  - apply sin_cos_half_sq.
Qed.

Lemma unit_x_norm : norm (mkVec3 1 0 0) = 1.
Proof.
  unfold norm, dot; cbn [vx vy vz].
  replace (1 * 1 + 0 * 0 + 0 * 0) with 1 by ring. apply sqrt_1.
Qed.

(** A half turn about the x axis flips the other two coordinates. *)
Example half_turn_about_x :
  mul_quat_vec (from_axis_angle (mkVec3 1 0 0) PI) (mkVec3 0 3 4)
  = mkVec3 0 (-3) (-4).
Proof.
  unfold from_axis_angle, vscale; cbn [vx vy vz].
  rewrite sin_PI2, cos_PI2.
  cbv [mul_quat_vec cross vadd vscale vx vy vz q0 q1 q2 q3].
  f_equal; ring.
Qed.

Lemma from_axis_angle_unit_witness :
  norm (mkVec3 1 0 0) = 1 /\
  quat_norm_sq (from_axis_angle (mkVec3 1 0 0) PI) = 1.
Proof.
  split; [exact unit_x_norm |].
  apply (from_axis_angle_unit (mkVec3 1 0 0) PI). exact unit_x_norm.
Defined.

Lemma mul_quat_vec_preserves_length_witness :
  norm (mkVec3 1 0 0) = 1 /\
  norm (mul_quat_vec (from_axis_angle (mkVec3 1 0 0) PI) (mkVec3 0 3 4))
  = norm (mkVec3 0 3 4).
Proof.
  split; [exact unit_x_norm |].
  apply (mul_quat_vec_preserves_length (mkVec3 1 0 0) PI (mkVec3 0 3 4)).
  exact unit_x_norm.
Defined.

Lemma mul_quat_vec_inverse_witness :
  norm (mkVec3 1 0 0) = 1 /\
  mul_quat_vec (from_axis_angle (mkVec3 1 0 0) (- PI))
    (mul_quat_vec (from_axis_angle (mkVec3 1 0 0) PI) (mkVec3 0 3 4))
  = mkVec3 0 3 4.
Proof.
  split; [exact unit_x_norm |].
  apply (mul_quat_vec_inverse (mkVec3 1 0 0) PI (mkVec3 0 3 4)).
  exact unit_x_norm.
Defined.

(** ** Quarter turns and cross products *)

Lemma dot_one_norm (v : Vec3) : dot v v = 1 -> norm v = 1.
Proof. intros H. unfold norm. rewrite H. apply sqrt_1. Qed.

Lemma half_sqrt2_sq : 1 / sqrt 2 * (1 / sqrt 2) = 1 / 2.
Proof.
  assert (H2 : sqrt 2 * sqrt 2 = 2) by (apply sqrt_sqrt; lra).
  assert (Hn : sqrt 2 <> 0) by (intros E; rewrite E in H2; lra).
  field_simplify_eq; [lra | exact Hn].
Qed.

(** The component along the axis is untouched by the rotation. *)
Lemma mul_quat_vec_axis_dot (a : Vec3) (theta : R) (v : Vec3) :
  dot a (mul_quat_vec (from_axis_angle a theta) v) = dot a v.
Proof.
  destruct a as [ax ay az], v as [x y z].
  cbv [from_axis_angle mul_quat_vec dot cross vadd vscale vx vy vz q0 q1 q2 q3].
  ring.
Qed.

Lemma quarter_turn_poly (ax ay az c x y z : R) :
  ax * ax + ay * ay + az * az = 1 ->
  ax * x + ay * y + az * z = 0 ->
  c * c = 1 / 2 ->
  mul_quat_vec (mkQuat (ax * - c) (ay * - c) (az * - c) c) (mkVec3 x y z)
    = cross (mkVec3 x y z) (mkVec3 ax ay az) /\
  mul_quat_vec (mkQuat (ax * c) (ay * c) (az * c) c) (mkVec3 x y z)
    = cross (mkVec3 ax ay az) (mkVec3 x y z).
Proof.
  intros Ha Hd Hc.
  assert (Hc2 : 2 * (c * c) = 1) by lra. clear Hc.
  cbv [mul_quat_vec dot cross vadd vscale vx vy vz q0 q1 q2 q3].
  split; f_equal; nsatz.
Qed.

(** A turn of -90 degrees about a unit axis [r] sends a vector [x]
    perpendicular to [r] to [cross x r]. *)
Lemma quarter_turn_back (r x : Vec3) :
  norm r = 1 -> dot r x = 0 ->
  mul_quat_vec (from_axis_angle r (- PI / 2)) x = cross x r.
Proof.
  intros Hr Hd. apply norm_one_dot in Hr.
  destruct r as [ax ay az], x as [x y z].
  unfold from_axis_angle, vscale, dot in *; cbn [vx vy vz] in *.
  replace (- PI / 2 / 2) with (- (PI / 4)) by lra.
  rewrite sin_neg, cos_neg, sin_PI4, cos_PI4.
  apply quarter_turn_poly; auto using half_sqrt2_sq.
Qed.

(** A turn of +90 degrees sends it to [cross r x]. *)
Lemma quarter_turn_forth (r x : Vec3) :
  norm r = 1 -> dot r x = 0 ->
  mul_quat_vec (from_axis_angle r (PI / 2)) x = cross r x.
Proof.
  intros Hr Hd. apply norm_one_dot in Hr.
  destruct r as [ax ay az], x as [x y z].
  unfold from_axis_angle, vscale, dot in *; cbn [vx vy vz] in *.
  replace (PI / 2 / 2) with (PI / 4) by lra.
  rewrite sin_PI4, cos_PI4.
  apply quarter_turn_poly; auto using half_sqrt2_sq.
Qed.

(** A quarter turn about x lifts the view direction -z to +y. *)
Example quarter_turn_lifts_front :
  mul_quat_vec (from_axis_angle (mkVec3 1 0 0) (PI / 2)) (mkVec3 0 0 (-1))
  = mkVec3 0 1 0.
Proof.
  rewrite quarter_turn_forth.
  - unfold cross; cbn [vx vy vz]. f_equal; ring.
  - apply dot_one_norm. unfold dot; cbn [vx vy vz]. ring.
  - unfold dot; cbn [vx vy vz]. ring.
Qed.

Lemma dot_comm (a b : Vec3) : dot a b = dot b a.
Proof. unfold dot. ring. Qed.

(** The rotation path of the script and the cross-product path give the
    same top and bottom normals as soon as [right] has length one and is
    perpendicular to [front]. *)
Lemma top_paths_agree (right front : Vec3) (half_fov_rad : R) :
  norm right = 1 -> dot right front = 0 ->
  top_normal_rotated right front half_fov_rad
  = top_normal_crossed right front half_fov_rad.
Proof.
  intros Hr Hd. unfold top_normal_rotated, top_normal_crossed.
  rewrite quarter_turn_back; auto.
  now rewrite mul_quat_vec_axis_dot.
Qed.

Lemma bottom_paths_agree (right front : Vec3) (half_fov_rad : R) :
  norm right = 1 -> dot right front = 0 ->
  bottom_normal_rotated right front half_fov_rad
  = bottom_normal_crossed right front half_fov_rad.
Proof.
  intros Hr Hd. unfold bottom_normal_rotated, bottom_normal_crossed.
  rewrite quarter_turn_forth; auto.
  now rewrite mul_quat_vec_axis_dot.
Qed.

(** C5: on an orthonormal basis the script's way to the top normal (a
    further turn of -90 degrees about [right], then normalising) agrees with
    the cross-product way, [normalize (cross top_edge_direction right)], and
    likewise for the bottom normal with +90 degrees and
    [cross right bottom_edge_direction]. *)
Theorem rotation_and_cross_normals_agree
  (front up right : Vec3) (half_fov_rad : R) :
  orthonormal front up right ->
  top_normal_rotated right front half_fov_rad
    = top_normal_crossed right front half_fov_rad /\
  bottom_normal_rotated right front half_fov_rad
    = bottom_normal_crossed right front half_fov_rad.
Proof.
  intros (_ & _ & Hr & _ & Hfr & _).
  rewrite dot_comm in Hfr.
  split; [apply top_paths_agree | apply bottom_paths_agree]; assumption.
Qed.

Lemma orthonormal_example :
  orthonormal (mkVec3 0 0 (-1)) (mkVec3 0 1 0) (mkVec3 1 0 0).
Proof.
  unfold orthonormal.
  repeat split;
    try (apply dot_one_norm); unfold dot; cbn [vx vy vz]; ring.
Qed.

Lemma rotation_and_cross_normals_agree_witness :
  orthonormal (mkVec3 0 0 (-1)) (mkVec3 0 1 0) (mkVec3 1 0 0) /\
  top_normal_rotated (mkVec3 1 0 0) (mkVec3 0 0 (-1)) (PI / 4)
    = top_normal_crossed (mkVec3 1 0 0) (mkVec3 0 0 (-1)) (PI / 4) /\
  bottom_normal_rotated (mkVec3 1 0 0) (mkVec3 0 0 (-1)) (PI / 4)
    = bottom_normal_crossed (mkVec3 1 0 0) (mkVec3 0 0 (-1)) (PI / 4).
Proof.
  split; [exact orthonormal_example |].
  apply (rotation_and_cross_normals_agree
           (mkVec3 0 0 (-1)) (mkVec3 0 1 0) (mkVec3 1 0 0) (PI / 4)).
  exact orthonormal_example.
Defined.

(** ** Dividing by the norm *)

Lemma norm_nonneg (v : Vec3) : 0 <= norm v.
Proof. apply sqrt_pos. Qed.

Lemma norm_zero_iff (v : Vec3) : norm v = 0 <-> v = vzero.
Proof.
  split.
  - intros H. apply sqrt_eq_0 in H; [| apply dot_self_nonneg].
    destruct v as [x y z]. unfold dot in H; cbn [vx vy vz] in H.
    assert (x = 0 /\ y = 0 /\ z = 0) as (-> & -> & ->) by (repeat split; nra).
    reflexivity.
  - intros ->. unfold norm, dot, vzero; cbn [vx vy vz].
    replace (0 * 0 + 0 * 0 + 0 * 0) with 0 by ring. apply sqrt_0.
Qed.

Lemma norm_pos (v : Vec3) : v <> vzero -> 0 < norm v.
Proof.
  intros Hv. destruct (norm_nonneg v) as [H | H]; [lra |].
  exfalso. apply Hv, norm_zero_iff. now symmetry.
Qed.

Lemma div_by_norm_nan : div_by_norm vzero = None.
Proof.
  unfold div_by_norm.
  destruct (Req_dec_T (norm vzero) 0) as [_ | H]; [reflexivity |].
  exfalso. apply H. now apply norm_zero_iff.
Qed.

Lemma div_by_norm_some (v : Vec3) :
  v <> vzero ->
  exists w, div_by_norm v = Some w /\ norm w = 1 /\ v = vscale w (norm v).
Proof.
  intros Hv. pose proof (norm_pos v Hv) as Hp.
  unfold div_by_norm.
  destruct (Req_dec_T (norm v) 0) as [H | H]; [lra |].
  eexists. split; [reflexivity |]. split.
  - apply dot_one_norm. unfold dot; cbn [vx vy vz].
    pose proof (norm_sq v) as Hs. unfold dot in Hs.
    field_simplify_eq; [lra | exact H].
  - destruct v as [x y z]. unfold vscale; cbn [vx vy vz].
    f_equal; field; exact H.
Qed.

Lemma div_by_norm_of_unit (v : Vec3) : norm v = 1 -> div_by_norm v = Some v.
Proof.
  intros Hv. unfold div_by_norm. rewrite Hv.
  destruct (Req_dec_T 1 0) as [H | _]; [lra |].
  destruct v as [x y z]; cbn [vx vy vz]. do 2 f_equal; field.
Qed.

Lemma nonzero_of_dot (v : Vec3) : dot v v <> 0 -> v <> vzero.
Proof.
  intros H ->. apply H. unfold dot, vzero; cbn [vx vy vz]. ring.
Qed.

Lemma dot_nonzero (v : Vec3) : v <> vzero -> dot v v <> 0.
Proof.
  intros Hv H. apply Hv, norm_zero_iff. unfold norm. rewrite H. apply sqrt_0.
Qed.

Lemma cross_vscale (a b : Vec3) (s t : R) :
  cross (vscale a s) (vscale b t) = vscale (cross a b) (s * t).
Proof.
  destruct a, b. unfold cross, vscale; cbn [vx vy vz]. f_equal; ring.
Qed.

Lemma cross_dot_left (a b : Vec3) : dot (cross a b) a = 0.
Proof. unfold dot, cross; cbn [vx vy vz]. ring. Qed.

Lemma cross_dot_right (a b : Vec3) : dot (cross a b) b = 0.
Proof. unfold dot, cross; cbn [vx vy vz]. ring. Qed.

Lemma dot_vscale_left (a b : Vec3) (s : R) : dot (vscale a s) b = dot a b * s.
Proof. unfold dot, vscale; cbn [vx vy vz]. ring. Qed.

(** Turning [f] about the unit axis [u] does not change the length of the
    cross product with [u]. *)
Lemma cross_after_turn_poly (ax ay az s c x y z : R) :
  ax * ax + ay * ay + az * az = 1 ->
  s * s + c * c = 1 ->
  let u := mkVec3 ax ay az in
  let w := cross (mul_quat_vec (mkQuat (ax * s) (ay * s) (az * s) c) (mkVec3 x y z)) u in
  dot w w = dot (cross (mkVec3 x y z) u) (cross (mkVec3 x y z) u).
Proof.
  intros Ha Hsc.
  cbv [mul_quat_vec dot cross vadd vscale vx vy vz q0 q1 q2 q3].
  nsatz.
Qed.

Lemma cross_after_turn (u f : Vec3) (theta : R) :
  norm u = 1 ->
  dot (cross (mul_quat_vec (from_axis_angle u theta) f) u)
      (cross (mul_quat_vec (from_axis_angle u theta) f) u)
  = dot (cross f u) (cross f u).
Proof.
  intros Hu. apply norm_one_dot in Hu.
  destruct u as [ax ay az], f as [x y z].
  unfold from_axis_angle, vscale; cbn [vx vy vz].
  apply cross_after_turn_poly; [exact Hu | apply sin_cos_half_sq].
Qed.

(** ** The run of [find_planes] on a valid input *)

(** The camera basis of a valid input is finite. *)
Lemma valid_basis (target up : Vec3) (aspect fovy : R) :
  valid_input target up aspect fovy ->
  exists f u r,
    div_by_norm target = Some f /\
    div_by_norm up = Some u /\
    div_by_norm (cross f u) = Some r /\
    norm f = 1 /\ norm u = 1 /\ norm r = 1 /\
    dot r f = 0 /\ dot r u = 0 /\
    cross f u <> vzero.
Proof.
  intros (Ht & Hu & Hp & _).
  destruct (div_by_norm_some target Ht) as (f & Ef & Nf & Sf).
  destruct (div_by_norm_some up Hu) as (u & Eu & Nu & Su).
  assert (Hc : cross f u <> vzero).
  { intros Hz. apply Hp. unfold parallel.
    rewrite Sf, Su, cross_vscale, Hz.
    unfold vscale, vzero; cbn [vx vy vz]. f_equal; ring. }
  destruct (div_by_norm_some (cross f u) Hc) as (r & Er & Nr & Sr).
  pose proof (norm_pos _ Hc) as Hn.
  exists f, u, r. repeat split; auto.
  - pose proof (cross_dot_left f u) as H.
    rewrite Sr, dot_vscale_left in H.
    apply Rmult_integral in H. destruct H; [assumption | lra].
  - pose proof (cross_dot_right f u) as H.
    rewrite Sr, dot_vscale_left in H.
    apply Rmult_integral in H. destruct H; [assumption | lra].
Qed.

(** The fields of a run whose basis is finite. *)
Lemma find_planes_fields
  (eye target up : Vec3) (aspect fovy znear zfar : R) (f u r : Vec3) :
  div_by_norm target = Some f ->
  div_by_norm up = Some u ->
  div_by_norm (cross f u) = Some r ->
  let run := find_planes eye target up aspect fovy znear zfar in
  front run = Some f /\
  up_norm run = Some u /\
  right run = Some r /\
  top_normal run = top_normal_rotated r f (half_fov_rad run) /\
  bottom_normal run = bottom_normal_rotated r f (half_fov_rad run) /\
  left_normal run
    = div_by_norm (cross (mul_quat_vec (from_axis_angle u (half_fov_h_rad run)) f) u) /\
  right_normal run
    = div_by_norm (cross (mul_quat_vec (from_axis_angle u (- half_fov_h_rad run)) f) u).
Proof.
  intros Ef Eu Er run. subst run. unfold find_planes.
  cbn [front up_norm right top_normal bottom_normal left_normal right_normal
       half_fov_rad half_fov_h_rad].
  rewrite Ef, Eu. cbn [nan_map nan_map2 nan_bind]. rewrite Er.
  cbn [nan_map nan_map2 nan_bind].
  repeat split; reflexivity.
Qed.

Lemma rotated_normals_unit (r f : Vec3) (h : R) :
  norm r = 1 -> norm f = 1 ->
  (exists n, top_normal_rotated r f h = Some n /\ norm n = 1) /\
  (exists n, bottom_normal_rotated r f h = Some n /\ norm n = 1).
Proof.
  intros Hr Hf. unfold top_normal_rotated, bottom_normal_rotated.
  split; eexists; (split; [apply div_by_norm_of_unit |]);
    now rewrite !mul_quat_vec_norm.
Qed.

Lemma side_normal_unit (u f : Vec3) (h : R) :
  norm u = 1 -> cross f u <> vzero ->
  exists n,
    div_by_norm (cross (mul_quat_vec (from_axis_angle u h) f) u) = Some n /\
    norm n = 1.
Proof.
  intros Hu Hc.
  destruct (div_by_norm_some (cross (mul_quat_vec (from_axis_angle u h) f) u))
    as (n & En & Nn & _).
  - apply nonzero_of_dot. rewrite cross_after_turn by assumption.
    now apply dot_nonzero.
  - now exists n.
Qed.

(** Everything the claims need about a run on a valid input. *)
Lemma find_planes_valid_run
  (eye target up : Vec3) (aspect fovy znear zfar : R) :
  valid_input target up aspect fovy ->
  let run := find_planes eye target up aspect fovy znear zfar in
  exists f u r tn bn ln rn,
    (front run = Some f /\ up_norm run = Some u /\ right run = Some r) /\
    (top_normal run = Some tn /\ bottom_normal run = Some bn /\
     left_normal run = Some ln /\ right_normal run = Some rn) /\
    (norm f = 1 /\ norm u = 1 /\ norm r = 1) /\
    (norm tn = 1 /\ norm bn = 1 /\ norm ln = 1 /\ norm rn = 1) /\
    (dot r f = 0 /\ dot r u = 0).
Proof.
  intros Hv run.
  destruct (valid_basis _ _ _ _ Hv)
    as (f & u & r & Ef & Eu & Er & Nf & Nu & Nr & Drf & Dru & Hc).
  destruct (find_planes_fields eye target up aspect fovy znear zfar f u r Ef Eu Er)
    as (F1 & F2 & F3 & F4 & F5 & F6 & F7).
  fold run in F1, F2, F3, F4, F5, F6, F7.
  destruct (rotated_normals_unit r f (half_fov_rad run) Nr Nf)
    as ((tn & Et & Nt) & (bn & Eb & Nb)).
  destruct (side_normal_unit u f (half_fov_h_rad run) Nu Hc) as (ln & El & Nl).
  destruct (side_normal_unit u f (- half_fov_h_rad run) Nu Hc) as (rn & Ern & Nrn).
  exists f, u, r, tn, bn, ln, rn.
  repeat split; try assumption; congruence.
Qed.

Lemma sample_valid_input :
  valid_input (mkVec3 0 0 (-1)) (mkVec3 0 1 0) 1 90.
Proof.
  unfold valid_input, parallel, vzero, cross; cbn [vx vy vz].
  repeat split; try lra; intros H; injection H; intros; lra.
Qed.

Lemma sample_well_conditioned :
  well_conditioned (mkVec3 0 0 (-1)) (mkVec3 0 1 0).
Proof.
  assert (N1 : norm (mkVec3 0 0 (-1)) = 1)
    by (apply dot_one_norm; unfold dot; cbn [vx vy vz]; ring).
  assert (N2 : norm (mkVec3 0 1 0) = 1)
    by (apply dot_one_norm; unfold dot; cbn [vx vy vz]; ring).
  assert (N3 : norm (cross (mkVec3 0 0 (-1)) (mkVec3 0 1 0)) = 1)
    by (apply dot_one_norm; unfold dot, cross; cbn [vx vy vz]; ring).
  unfold well_conditioned, well_scaled. rewrite N1, N2, N3.
  repeat split; lra.
Qed.

Lemma overflow_valid_input :
  valid_input (mkVec3 1e200 0 0) (mkVec3 0 1 0) 1 90.
Proof.
  unfold valid_input, parallel, vzero, cross; cbn [vx vy vz].
  repeat split; try lra; intros H; injection H; intros; lra.
Qed.

(** C7, as stated, fails: for the valid input with view direction
    (1e200, 0, 0) and up (0, 1, 0) the square under the norm overflows, the
    norm is infinite and the doubles of line 29 give [front] = (0, 0, 0),
    whose length is 0 and not 1. *)
Lemma find_planes_unit_lengths_counterexample :
  valid_input (mkVec3 1e200 0 0) (mkVec3 0 1 0) 1 90 /\
  let b := f64_basis (mkF64Vec3 1e200 0 0) (mkF64Vec3 0 1 0) in
  f64_norm (mkF64Vec3 1e200 0 0) = infinity /\
  f64_front b = mkF64Vec3 0 0 0 /\
  f64_norm (f64_front b) = 0%float /\
  f64_within 1e-6 (f64_norm (f64_front b)) 1 = false.
Proof.
  split; [exact overflow_valid_input |].
  repeat split; vm_compute; reflexivity.
Qed.

(** C7, amended: on a valid input that is well-conditioned (both lengths
    between 1e-100 and 1e100, the sine of the angle between view direction
    and up at least 1e-3) the basis vectors [front], [up] and [right] are
    finite and of length one, and so are the four plane normals, in exact
    arithmetic; the doubles of the script follow up to rounding. *)
Theorem find_planes_unit_lengths
  (eye target up : Vec3) (aspect fovy znear zfar : R) :
  valid_input target up aspect fovy ->
  well_conditioned target up ->
  let run := find_planes eye target up aspect fovy znear zfar in
  exists f u r tn bn ln rn,
    front run = Some f /\ up_norm run = Some u /\ right run = Some r /\
    top_normal run = Some tn /\ bottom_normal run = Some bn /\
    left_normal run = Some ln /\ right_normal run = Some rn /\
    norm f = 1 /\ norm u = 1 /\ norm r = 1 /\
    norm tn = 1 /\ norm bn = 1 /\ norm ln = 1 /\ norm rn = 1.
Proof.
  intros Hv _ run.
  destruct (find_planes_valid_run eye target up aspect fovy znear zfar Hv)
    as (f & u & r & tn & bn & ln & rn & HB & HN & HNB & HNN & _).
  exists f, u, r, tn, bn, ln, rn. tauto.
Qed.

(** C8, as stated, fails: for the same valid input the doubles of lines 29
    to 32 give [front] = (0, 0, 0), a zero cross product and, dividing it by
    its zero norm, a [right] filled with [nan]; its dot products with
    [front] and [up] are [nan], not within any tolerance of 0. *)
Lemma find_planes_right_orthogonal_counterexample :
  valid_input (mkVec3 1e200 0 0) (mkVec3 0 1 0) 1 90 /\
  let b := f64_basis (mkF64Vec3 1e200 0 0) (mkF64Vec3 0 1 0) in
  f64_right b = mkF64Vec3 nan nan nan /\
  f64_within 1e-6 (f64_dot (f64_right b) (f64_front b)) 0 = false /\
  f64_within 1e-6 (f64_dot (f64_right b) (f64_up_norm b)) 0 = false.
Proof.
  split; [exact overflow_valid_input |].
  repeat split; vm_compute; reflexivity.
Qed.

(** C8, amended: on a valid input that is well-conditioned the computed
    [right] is perpendicular to [front] and to the normalised [up], in exact
    arithmetic; the doubles of the script follow up to rounding. *)
Theorem find_planes_right_orthogonal
  (eye target up : Vec3) (aspect fovy znear zfar : R) :
  valid_input target up aspect fovy ->
  well_conditioned target up ->
  let run := find_planes eye target up aspect fovy znear zfar in
  exists f u r,
    front run = Some f /\ up_norm run = Some u /\ right run = Some r /\
    dot r f = 0 /\ dot r u = 0.
Proof.
  intros Hv _ run.
  destruct (find_planes_valid_run eye target up aspect fovy znear zfar Hv)
    as (f & u & r & tn & bn & ln & rn & HB & _ & _ & _ & HO).
  exists f, u, r. tauto.
Qed.

Lemma find_planes_unit_lengths_witness :
  valid_input (mkVec3 0 0 (-1)) (mkVec3 0 1 0) 1 90 /\
  well_conditioned (mkVec3 0 0 (-1)) (mkVec3 0 1 0) /\
  let run := find_planes (mkVec3 1 2 3) (mkVec3 0 0 (-1)) (mkVec3 0 1 0) 1 90 1 10 in
  exists f u r tn bn ln rn,
    front run = Some f /\ up_norm run = Some u /\ right run = Some r /\
    top_normal run = Some tn /\ bottom_normal run = Some bn /\
    left_normal run = Some ln /\ right_normal run = Some rn /\
    norm f = 1 /\ norm u = 1 /\ norm r = 1 /\
    norm tn = 1 /\ norm bn = 1 /\ norm ln = 1 /\ norm rn = 1.
Proof.
  split; [exact sample_valid_input |].
  split; [exact sample_well_conditioned |].
  apply (find_planes_unit_lengths
           (mkVec3 1 2 3) (mkVec3 0 0 (-1)) (mkVec3 0 1 0) 1 90 1 10).
  - exact sample_valid_input.
  - exact sample_well_conditioned.
Defined.

Lemma find_planes_right_orthogonal_witness :
  valid_input (mkVec3 0 0 (-1)) (mkVec3 0 1 0) 1 90 /\
  well_conditioned (mkVec3 0 0 (-1)) (mkVec3 0 1 0) /\
  let run := find_planes (mkVec3 1 2 3) (mkVec3 0 0 (-1)) (mkVec3 0 1 0) 1 90 1 10 in
  exists f u r,
    front run = Some f /\ up_norm run = Some u /\ right run = Some r /\
    dot r f = 0 /\ dot r u = 0.
Proof.
  split; [exact sample_valid_input |].
  split; [exact sample_well_conditioned |].
  apply (find_planes_right_orthogonal
           (mkVec3 1 2 3) (mkVec3 0 0 (-1)) (mkVec3 0 1 0) 1 90 1 10).
  - exact sample_valid_input.
  - exact sample_well_conditioned.
Defined.

(** ** The planes that are formed *)




(** ** A zero view direction *)

(** C2, as stated, fails: with the zero view direction the call of the
    script's own example raises nothing. *)
Lemma find_planes_zero_direction_counterexample :
  result (find_planes main_eye vzero main_up 1.8695229 90 0.1 100)
  <> PyRaise InvalidArgument.
Proof. unfold find_planes; cbn [result]. discriminate. Qed.

(** C2, amended: with the zero view direction the call raises no error and
    returns [None]; [front], [right] and the four normals are filled with
    [nan], and no wireframe is drawn. *)
Theorem find_planes_zero_direction
  (eye up : Vec3) (aspect fovy znear zfar : R) :
  let run := find_planes eye vzero up aspect fovy znear zfar in
  result run = PyNone /\
  front run = None /\ right run = None /\
  top_normal run = None /\ bottom_normal run = None /\
  left_normal run = None /\ right_normal run = None /\
  top_d run = None /\ bottom_d run = None /\
  wireframes run = [].
Proof.
  intros run. subst run. unfold find_planes.
  cbn [result front right top_normal bottom_normal left_normal right_normal
       top_d bottom_d wireframes].
  rewrite div_by_norm_nan.
  destruct (div_by_norm up); cbn [nan_map nan_map2 nan_bind wireframe app];
    repeat split; reflexivity.
Qed.

(** ** Near and far distances *)

(** C6: two calls that differ only in [znear] and [zfar] compute the same
    normals and offsets (the same run altogether). *)
Theorem find_planes_ignores_near_far
  (eye target up : Vec3) (aspect fovy znear zfar znear' zfar' : R) :
  let run := find_planes eye target up aspect fovy znear zfar in
  let run' := find_planes eye target up aspect fovy znear' zfar' in
  top_normal run = top_normal run' /\
  bottom_normal run = bottom_normal run' /\
  left_normal run = left_normal run' /\
  right_normal run = right_normal run' /\
  top_d run = top_d run' /\
  bottom_d run = bottom_d run' /\
  run = run'.
Proof. repeat split; reflexivity. Qed.

(** ** The call of the script *)

Lemma main_valid_input : valid_input main_target main_up 1.8695229 90.
Proof.
  unfold valid_input, parallel, vzero, cross, main_target, main_up; cbn [vx vy vz].
  repeat split; try lra; intros H; injection H; intros; lra.
Qed.

(** A negative number whose square is a third lies within 5e-6 of
    -0.57735, and a positive number whose square is a half within 5e-6 of
    0.70711. *)
Lemma third_root_bound (x : R) :
  x < 0 -> 3 * (x * x) = 1 -> Rabs (x - -0.57735) <= 5e-6.
Proof.
  intros Hx Hs. apply Rabs_le. split.
  - destruct (Rle_dec (- 5e-6) (x - -0.57735)) as [H | H]; [lra |].
    exfalso. apply Rnot_le_lt in H.
    assert (Hb : 0.577355 < - x) by lra.
    assert (0.577355 * 0.577355 < (- x) * (- x)) by nra.
    lra.
  - destruct (Rle_dec (x - -0.57735) 5e-6) as [H | H]; [lra |].
    exfalso. apply Rnot_le_lt in H.
    assert (Hb : - x < 0.577345) by lra.
    assert ((- x) * (- x) < 0.577345 * 0.577345) by nra.
    lra.
Qed.

Lemma half_root_bound (x : R) :
  0 < x -> 2 * (x * x) = 1 -> Rabs (x - 0.70711) <= 5e-6.
Proof.
  intros Hx Hs. apply Rabs_le. split.
  - destruct (Rle_dec (- 5e-6) (x - 0.70711)) as [H | H]; [lra |].
    exfalso. apply Rnot_le_lt in H.
    assert (Hb : x < 0.707105) by lra.
    assert (x * x < 0.707105 * 0.707105) by nra.
    lra.
  - destruct (Rle_dec (x - 0.70711) 5e-6) as [H | H]; [lra |].
    exfalso. apply Rnot_le_lt in H.
    assert (Hb : 0.707115 < x) by lra.
    assert (0.707115 * 0.707115 < x * x) by nra.
    lra.
Qed.

(** C9: for the call at the bottom of the script the basis is
    [front] = (-0.57735, -0.57735, -0.57735), [up] = (0, 1, 0) and
    [right] = (0.70711, 0, -0.70711), each component within 5e-6, half a
    unit of the last printed digit. *)
Theorem main_basis :
  exists f u r,
    front main_run = Some f /\ up_norm main_run = Some u /\
    right main_run = Some r /\
    approx 5e-6 f (mkVec3 (-0.57735) (-0.57735) (-0.57735)) /\
    approx 5e-6 u (mkVec3 0 1 0) /\
    approx 5e-6 r (mkVec3 0.70711 0 (-0.70711)).
Proof.
  destruct (valid_basis _ _ _ _ main_valid_input)
    as (f & u & r & Ef & Eu & Er & Nf & Nu & Nr & _ & _ & Hc).
  destruct (find_planes_fields main_eye main_target main_up 1.8695229 90 0.1 100
              f u r Ef Eu Er) as (F1 & F2 & F3 & _).
  fold main_run in F1, F2, F3.
  exists f, u, r. do 3 (split; [assumption |]).
  (* front *)
  assert (Ht : main_target <> vzero) by apply main_valid_input.
  destruct (div_by_norm_some main_target Ht) as (f' & Ef' & _ & Sf).
  rewrite Ef in Ef'. injection Ef' as <-.
  pose proof (norm_pos _ Ht) as Pt.
  (* up *)
  assert (Hu : main_up <> vzero) by apply main_valid_input.
  destruct (div_by_norm_some main_up Hu) as (u' & Eu' & _ & Su).
  rewrite Eu in Eu'. injection Eu' as <-.
  assert (Nup : norm main_up = 1).
  { apply dot_one_norm. unfold dot, main_up; cbn [vx vy vz]. ring. }
  rewrite Nup in Su.
  (* right *)
  destruct (div_by_norm_some (cross f u) Hc) as (r' & Er' & _ & Sr).
  rewrite Er in Er'. injection Er' as <-.
  pose proof (norm_pos _ Hc) as Pc.
  apply norm_one_dot in Nf, Nr.
  set (n := norm main_target) in *. set (m := norm (cross f u)) in *.
  destruct f as [fx fy fz], u as [ux uy uz], r as [rx ry rz].
  unfold main_target, main_up, vscale, cross, dot in *; cbn [vx vy vz] in *.
  injection Sf as Sfx Sfy Sfz. injection Su as Sux Suy Suz.
  assert (ux = 0) by lra. assert (uy = 1) by lra. assert (uz = 0) by lra.
  subst ux uy uz.
  injection Sr as Srx Sry Srz.
  assert (Hfxy : fx = fy) by (apply (Rmult_eq_reg_r n); lra).
  assert (Hfxz : fx = fz) by (apply (Rmult_eq_reg_r n); lra).
  subst fy fz.
  assert (Hfneg : fx < 0) by nra.
  assert (Hry : ry = 0) by (apply (Rmult_eq_reg_r m); lra).
  assert (Hrz : rz = - rx) by (apply (Rmult_eq_reg_r m); lra).
  subst ry rz.
  assert (Hrpos : 0 < rx) by nra.
  unfold approx; cbn [vx vy vz].
  assert (Bf : Rabs (fx - -0.57735) <= 5e-6) by (apply third_root_bound; lra).
  assert (Br : Rabs (rx - 0.70711) <= 5e-6) by (apply half_root_bound; lra).
  assert (Z0 : Rabs (0 - 0) <= 5e-6).
  { replace (0 - 0) with 0 by ring. rewrite Rabs_R0. lra. }
  assert (Z1 : Rabs (1 - 1) <= 5e-6).
  { replace (1 - 1) with 0 by ring. rewrite Rabs_R0. lra. }
  repeat split; try assumption.
  replace (- rx - -0.70711) with (- (rx - 0.70711)) by lra.
  now rewrite Rabs_Ropp.
Qed.

(** * Further properties of the quaternion helper *)

Lemma half_angle_sum (x y : R) : (x + y) / 2 = x / 2 + y / 2.
Proof. lra. Qed.

(** X1: a rotation by the angle zero, or about the zero axis by any angle,
    is the identity, whatever the axis and the vector. *)
Theorem mul_quat_vec_identity (a : Vec3) (theta : R) (v : Vec3) :
  mul_quat_vec (from_axis_angle a 0) v = v /\
  mul_quat_vec (from_axis_angle vzero theta) v = v.
Proof.
  destruct a as [ax ay az], v as [x y z].
  unfold from_axis_angle, vscale, vzero; cbn [vx vy vz].
  replace (0 / 2) with 0 by lra. rewrite sin_0, cos_0.
  cbv [mul_quat_vec cross vadd vscale vx vy vz q0 q1 q2 q3].
  split; f_equal; ring.
Qed.

(** X2: the rotation leaves every multiple of its axis where it is, for
    any axis (of length one or not) and any angle. *)
Theorem mul_quat_vec_fixes_axis (a : Vec3) (theta k : R) :
  mul_quat_vec (from_axis_angle a theta) (vscale a k) = vscale a k.
Proof.
  destruct a as [ax ay az].
  cbv [from_axis_angle mul_quat_vec cross vadd vscale vx vy vz q0 q1 q2 q3].
  f_equal; ring.
Qed.

(** X3: [mul_quat_vec q] is linear in the vector, for every quaternion. *)
Theorem mul_quat_vec_linear (q : Quat) (v w : Vec3) (k l : R) :
  mul_quat_vec q (vadd (vscale v k) (vscale w l))
  = vadd (vscale (mul_quat_vec q v) k) (vscale (mul_quat_vec q w) l).
Proof.
  destruct q as [a b c d], v as [x y z], w as [x' y' z'].
  cbv [mul_quat_vec cross vadd vscale vx vy vz q0 q1 q2 q3].
  f_equal; ring.
Qed.

Lemma rot_dot2_poly (ax ay az s c x y z x' y' z' : R) :
  ax * ax + ay * ay + az * az = 1 ->
  s * s + c * c = 1 ->
  let q := mkQuat (ax * s) (ay * s) (az * s) c in
  dot (mul_quat_vec q (mkVec3 x y z)) (mul_quat_vec q (mkVec3 x' y' z'))
  = dot (mkVec3 x y z) (mkVec3 x' y' z').
Proof.
  intros Ha Hsc; cbv [mul_quat_vec dot cross vadd vscale vx vy vz q0 q1 q2 q3].
  nsatz.
Qed.

(** X4: with a unit axis the rotation keeps the dot product of any two
    vectors, hence angles as well as lengths. *)
Theorem mul_quat_vec_preserves_dot (a : Vec3) (theta : R) (v w : Vec3) :
  norm a = 1 ->
  dot (mul_quat_vec (from_axis_angle a theta) v)
      (mul_quat_vec (from_axis_angle a theta) w) = dot v w.
Proof.
  intros Ha. apply norm_one_dot in Ha.
  destruct a as [ax ay az], v as [x y z], w as [x' y' z'].
  unfold from_axis_angle, vscale; cbn [vx vy vz].
  apply rot_dot2_poly; [exact Ha | apply sin_cos_half_sq].
Qed.

Lemma mul_quat_vec_preserves_dot_witness :
  norm (mkVec3 1 0 0) = 1 /\
  dot (mul_quat_vec (from_axis_angle (mkVec3 1 0 0) 1) (mkVec3 0 3 4))
      (mul_quat_vec (from_axis_angle (mkVec3 1 0 0) 1) (mkVec3 2 1 0))
  = dot (mkVec3 0 3 4) (mkVec3 2 1 0).
Proof.
  split; [exact unit_x_norm |].
  apply (mul_quat_vec_preserves_dot (mkVec3 1 0 0) 1 (mkVec3 0 3 4) (mkVec3 2 1 0)).
  exact unit_x_norm.
Defined.

Lemma rot_cross_poly (ax ay az s c x y z x' y' z' : R) :
  ax * ax + ay * ay + az * az = 1 ->
  s * s + c * c = 1 ->
  let q := mkQuat (ax * s) (ay * s) (az * s) c in
  cross (mul_quat_vec q (mkVec3 x y z)) (mul_quat_vec q (mkVec3 x' y' z'))
  = mul_quat_vec q (cross (mkVec3 x y z) (mkVec3 x' y' z')).
Proof.
  intros Ha Hsc; cbv [mul_quat_vec dot cross vadd vscale vx vy vz q0 q1 q2 q3].
  f_equal; nsatz.
Qed.

(** X5: with a unit axis the rotation commutes with the cross product: it
    never mirrors. *)
Theorem mul_quat_vec_preserves_cross (a : Vec3) (theta : R) (v w : Vec3) :
  norm a = 1 ->
  cross (mul_quat_vec (from_axis_angle a theta) v)
        (mul_quat_vec (from_axis_angle a theta) w)
  = mul_quat_vec (from_axis_angle a theta) (cross v w).
Proof.
  intros Ha. apply norm_one_dot in Ha.
  destruct a as [ax ay az], v as [x y z], w as [x' y' z'].
  unfold from_axis_angle, vscale; cbn [vx vy vz].
  change (cross (mkVec3 x y z) (mkVec3 x' y' z'))
    with (mkVec3 (y * z' - z * y') (z * x' - x * z') (x * y' - y * x')).
  apply rot_cross_poly; [exact Ha | apply sin_cos_half_sq].
Qed.

Lemma mul_quat_vec_preserves_cross_witness :
  norm (mkVec3 1 0 0) = 1 /\
  cross (mul_quat_vec (from_axis_angle (mkVec3 1 0 0) 1) (mkVec3 0 3 4))
        (mul_quat_vec (from_axis_angle (mkVec3 1 0 0) 1) (mkVec3 2 1 0))
  = mul_quat_vec (from_axis_angle (mkVec3 1 0 0) 1)
      (cross (mkVec3 0 3 4) (mkVec3 2 1 0)).
Proof.
  split; [exact unit_x_norm |].
  apply (mul_quat_vec_preserves_cross (mkVec3 1 0 0) 1 (mkVec3 0 3 4) (mkVec3 2 1 0)).
  exact unit_x_norm.
Defined.

Lemma rot_compose_poly (ax ay az sa ca sb cb x y z : R) :
  ax * ax + ay * ay + az * az = 1 ->
  sa * sa + ca * ca = 1 ->
  sb * sb + cb * cb = 1 ->
  let s := sa * cb + ca * sb in
  let c := ca * cb - sa * sb in
  mul_quat_vec (mkQuat (ax * sa) (ay * sa) (az * sa) ca)
    (mul_quat_vec (mkQuat (ax * sb) (ay * sb) (az * sb) cb) (mkVec3 x y z))
  = mul_quat_vec (mkQuat (ax * s) (ay * s) (az * s) c) (mkVec3 x y z).
Proof.
  intros Ha Hsa Hsb;
    cbv [mul_quat_vec dot cross vadd vscale vx vy vz q0 q1 q2 q3].
  f_equal; nsatz.
Qed.

(** X6: two rotations about the same unit axis compose to the rotation by
    the sum of their angles. *)
Theorem mul_quat_vec_compose (a : Vec3) (alpha beta : R) (v : Vec3) :
  norm a = 1 ->
  mul_quat_vec (from_axis_angle a alpha)
               (mul_quat_vec (from_axis_angle a beta) v)
  = mul_quat_vec (from_axis_angle a (alpha + beta)) v.
Proof.
  intros Ha. apply norm_one_dot in Ha.
  destruct a as [ax ay az], v as [x y z].
  unfold from_axis_angle, vscale, dot in *; cbn [vx vy vz] in *.
  rewrite half_angle_sum, sin_plus, cos_plus.
  apply rot_compose_poly; auto using sin_cos_half_sq.
Qed.

Lemma mul_quat_vec_compose_witness :
  norm (mkVec3 1 0 0) = 1 /\
  mul_quat_vec (from_axis_angle (mkVec3 1 0 0) 1)
               (mul_quat_vec (from_axis_angle (mkVec3 1 0 0) 2) (mkVec3 0 3 4))
  = mul_quat_vec (from_axis_angle (mkVec3 1 0 0) (1 + 2)) (mkVec3 0 3 4).
Proof.
  split; [exact unit_x_norm |].
  apply (mul_quat_vec_compose (mkVec3 1 0 0) 1 2 (mkVec3 0 3 4)).
  exact unit_x_norm.
Defined.

Lemma rodrigues_poly (ax ay az s c x y z : R) :
  ax * ax + ay * ay + az * az = 1 ->
  s * s + c * c = 1 ->
  let a := mkVec3 ax ay az in
  let v := mkVec3 x y z in
  let co := c * c - s * s in
  let si := 2 * s * c in
  mul_quat_vec (mkQuat (ax * s) (ay * s) (az * s) c) v
  = vadd (vadd (vscale v co) (vscale (cross a v) si))
         (vscale a (dot a v * (1 - co))).
Proof.
  intros Ha Hsc;
    cbv [mul_quat_vec dot cross vadd vscale vx vy vz q0 q1 q2 q3].
  f_equal; nsatz.
Qed.

(** The rotation written with the sine and cosine of the full angle. *)
Lemma rotation_is_rodrigues (a : Vec3) (theta : R) (v : Vec3) :
  norm a = 1 ->
  mul_quat_vec (from_axis_angle a theta) v = rodrigues a theta v.
Proof.
  intros Ha. apply norm_one_dot in Ha.
  unfold rodrigues.
  replace (cos theta) with (cos (2 * (theta / 2))) by (f_equal; lra).
  replace (sin theta) with (sin (2 * (theta / 2))) by (f_equal; lra).
  rewrite cos_2a, sin_2a.
  destruct a as [ax ay az], v as [x y z].
  unfold from_axis_angle; unfold vscale at 1; cbn [vx vy vz].
  apply rodrigues_poly; [exact Ha | apply sin_cos_half_sq].
Qed.

(** X7: with a unit axis [mul_quat_vec (from_axis_angle a theta)] is the
    rotation of Rodrigues' formula: by the full angle [theta] about [a],
    in the right-handed sense. *)
Theorem mul_quat_vec_rodrigues (a : Vec3) (theta : R) (v : Vec3) :
  norm a = 1 ->
  mul_quat_vec (from_axis_angle a theta) v = rodrigues a theta v.
Proof. exact (rotation_is_rodrigues a theta v). Qed.

Lemma mul_quat_vec_rodrigues_witness :
  norm (mkVec3 1 0 0) = 1 /\
  mul_quat_vec (from_axis_angle (mkVec3 1 0 0) 1) (mkVec3 0 3 4)
  = rodrigues (mkVec3 1 0 0) 1 (mkVec3 0 3 4).
Proof.
  split; [exact unit_x_norm |].
  apply (mul_quat_vec_rodrigues (mkVec3 1 0 0) 1 (mkVec3 0 3 4)).
  exact unit_x_norm.
Defined.

(** X8: the rotation has period [2 * PI] in the angle, for every axis:
    the quaternion changes its sign, the rotated vector does not. *)
Theorem mul_quat_vec_period (a : Vec3) (theta : R) (v : Vec3) :
  q3 (from_axis_angle a (theta + 2 * PI)) = - q3 (from_axis_angle a theta) /\
  mul_quat_vec (from_axis_angle a (theta + 2 * PI)) v
  = mul_quat_vec (from_axis_angle a theta) v.
Proof.
  destruct a as [ax ay az], v as [x y z].
  unfold from_axis_angle, vscale; cbn [vx vy vz q3].
  replace ((theta + 2 * PI) / 2) with (theta / 2 + PI) by lra.
  rewrite neg_sin, neg_cos.
  cbv [mul_quat_vec cross vadd vscale vx vy vz q0 q1 q2 q3].
  split; [reflexivity | f_equal; ring].
Qed.

Lemma non_unit_axis_poly (ax ay az s c x y z : R) :
  s * s + c * c = 1 ->
  ax * x + ay * y + az * z = 0 ->
  let k := ax * ax + ay * ay + az * az in
  let q := mkQuat (ax * s) (ay * s) (az * s) c in
  dot (mul_quat_vec q (mkVec3 x y z)) (mul_quat_vec q (mkVec3 x y z))
  = dot (mkVec3 x y z) (mkVec3 x y z)
    * (1 + 4 * (s * s * s * s) * k * (k - 1)).
Proof.
  intros Hsc Hd;
    cbv [mul_quat_vec dot cross vadd vscale vx vy vz q0 q1 q2 q3].
  nsatz.
Qed.

(** X9: no unit axis is checked for.  With an axis of squared length [k]
    a vector perpendicular to the axis has its squared length multiplied by
    [1 + 4 sin^4(theta/2) k (k - 1)]: it grows for [k > 1] and shrinks for
    [0 < k < 1] unless the angle is a multiple of a full turn. *)
Theorem mul_quat_vec_non_unit_axis (a : Vec3) (theta : R) (v : Vec3) :
  dot a v = 0 ->
  dot (mul_quat_vec (from_axis_angle a theta) v)
      (mul_quat_vec (from_axis_angle a theta) v)
  = dot v v * (1 + 4 * (sin (theta / 2)) ^ 4 * dot a a * (dot a a - 1)).
Proof.
  intros Hd.
  destruct a as [ax ay az], v as [x y z].
  unfold from_axis_angle, vscale; cbn [vx vy vz].
  unfold dot in Hd; cbn [vx vy vz] in Hd.
  replace (dot (mkVec3 ax ay az) (mkVec3 ax ay az))
    with (ax * ax + ay * ay + az * az) by reflexivity.
  replace (sin (theta / 2) ^ 4)
    with (sin (theta / 2) * sin (theta / 2) * sin (theta / 2) * sin (theta / 2))
    by ring.
  apply non_unit_axis_poly; [apply sin_cos_half_sq | exact Hd].
Qed.

Lemma mul_quat_vec_non_unit_axis_witness :
  dot (mkVec3 2 0 0) (mkVec3 0 1 0) = 0 /\
  dot (mul_quat_vec (from_axis_angle (mkVec3 2 0 0) PI) (mkVec3 0 1 0))
      (mul_quat_vec (from_axis_angle (mkVec3 2 0 0) PI) (mkVec3 0 1 0))
  = dot (mkVec3 0 1 0) (mkVec3 0 1 0)
    * (1 + 4 * (sin (PI / 2)) ^ 4
           * dot (mkVec3 2 0 0) (mkVec3 2 0 0)
           * (dot (mkVec3 2 0 0) (mkVec3 2 0 0) - 1)).
Proof.
  assert (H : dot (mkVec3 2 0 0) (mkVec3 0 1 0) = 0)
    by (unfold dot; cbn [vx vy vz]; ring).
  split; [exact H |].
  apply (mul_quat_vec_non_unit_axis (mkVec3 2 0 0) PI (mkVec3 0 1 0)).
  exact H.
Defined.

(** * Further properties of [find_planes] *)

Lemma div_by_norm_inv (v w : Vec3) :
  div_by_norm v = Some w ->
  v <> vzero /\ 0 < norm v /\ norm w = 1 /\ v = vscale w (norm v).
Proof.
  intros E.
  assert (Hv : v <> vzero).
  { intros ->. rewrite div_by_norm_nan in E. discriminate. }
  destruct (div_by_norm_some v Hv) as (w' & E' & Nw & Sw).
  rewrite E in E'. injection E' as <-.
  auto using norm_pos.
Qed.

Lemma not_parallel_valid (target up : Vec3) :
  ~ parallel target up -> valid_input target up 1 90.
Proof.
  intros Hp. unfold valid_input. repeat split; try lra; try assumption.
  - intros ->. apply Hp. unfold parallel, cross, vzero; cbn [vx vy vz].
    f_equal; ring.
  - intros ->. apply Hp. unfold parallel, cross, vzero; cbn [vx vy vz].
    f_equal; ring.
Qed.

(** The run on a view direction and an up vector that are not parallel. *)
Lemma find_planes_nondegenerate
  (eye target up : Vec3) (aspect fovy znear zfar : R) :
  ~ parallel target up ->
  let run := find_planes eye target up aspect fovy znear zfar in
  exists f u r,
    (div_by_norm target = Some f /\ div_by_norm up = Some u /\
     div_by_norm (cross f u) = Some r) /\
    (front run = Some f /\ up_norm run = Some u /\ right run = Some r) /\
    (norm f = 1 /\ norm u = 1 /\ norm r = 1 /\
     dot r f = 0 /\ dot r u = 0 /\ cross f u <> vzero) /\
    top_normal run = top_normal_rotated r f (half_fov_rad run) /\
    bottom_normal run = bottom_normal_rotated r f (half_fov_rad run) /\
    left_normal run
      = div_by_norm (cross (mul_quat_vec (from_axis_angle u (half_fov_h_rad run)) f) u) /\
    right_normal run
      = div_by_norm (cross (mul_quat_vec (from_axis_angle u (- half_fov_h_rad run)) f) u).
Proof.
  intros Hp run.
  destruct (valid_basis _ _ _ _ (not_parallel_valid _ _ Hp))
    as (f & u & r & Ef & Eu & Er & Nf & Nu & Nr & Drf & Dru & Hc).
  destruct (find_planes_fields eye target up aspect fovy znear zfar f u r Ef Eu Er)
    as (F1 & F2 & F3 & F4 & F5 & F6 & F7).
  exists f, u, r. repeat split; assumption.
Qed.

(** X10: with the zero vector for [up] nothing is raised either: [up_norm],
    [right] and the four normals are filled with [nan] whatever the view
    direction, no offset is finite, no wireframe is drawn and the call
    returns [None]. *)
Theorem find_planes_zero_up
  (eye target : Vec3) (aspect fovy znear zfar : R) :
  let run := find_planes eye target vzero aspect fovy znear zfar in
  result run = PyNone /\
  up_norm run = None /\ right run = None /\
  top_normal run = None /\ bottom_normal run = None /\
  left_normal run = None /\ right_normal run = None /\
  top_d run = None /\ bottom_d run = None /\
  wireframes run = [].
Proof.
  intros run. subst run. unfold find_planes.
  cbn [result up_norm right top_normal bottom_normal left_normal right_normal
       top_d bottom_d wireframes].
  rewrite div_by_norm_nan.
  destruct (div_by_norm target); cbn [nan_map nan_map2 nan_bind wireframe app];
    repeat split; reflexivity.
Qed.

Lemma norm_vscale (v : Vec3) (k : R) : 0 <= k -> norm (vscale v k) = norm v * k.
Proof.
  intros Hk. unfold norm.
  replace (dot (vscale v k) (vscale v k)) with (dot v v * (k * k))
    by (unfold dot, vscale; cbn [vx vy vz]; ring).
  rewrite sqrt_mult_alt by apply dot_self_nonneg.
  now rewrite sqrt_square.
Qed.

Lemma div_by_norm_vscale (v : Vec3) (k : R) :
  0 < k -> div_by_norm (vscale v k) = div_by_norm v.
Proof.
  intros Hk. unfold div_by_norm.
  rewrite norm_vscale by lra.
  destruct (Req_dec_T (norm v * k) 0) as [H | H];
    destruct (Req_dec_T (norm v) 0) as [H' | H'].
  - reflexivity.
  - exfalso. apply Rmult_integral in H. destruct H; lra.
  - exfalso. apply H. rewrite H'. ring.
  - unfold vscale; cbn [vx vy vz]. do 2 f_equal; field; split; lra.
Qed.

Lemma well_conditioned_vscale (a b : Vec3) (k l : R) :
  0 < k -> 0 < l ->
  well_scaled (vscale a k) -> well_scaled (vscale b l) ->
  well_conditioned a b -> well_conditioned (vscale a k) (vscale b l).
Proof.
  intros Hk Hl Sa Sb (_ & _ & Hc).
  split; [exact Sa |]. split; [exact Sb |].
  rewrite cross_vscale, !norm_vscale by nra.
  pose proof (norm_nonneg a). pose proof (norm_nonneg b).
  pose proof (norm_nonneg (cross a b)).
  assert (0 < k * l) by nra.
  replace (1e-3 * (norm a * k * (norm b * l)))
    with (1e-3 * (norm a * norm b) * (k * l)) by ring.
  apply Rmult_le_compat_r; lra.
Qed.

(** X11: only the directions of [target] and [up] count: stretching either
    by a positive factor leaves the whole run as it is, as long as the
    input is well-conditioned before and after. *)
Theorem find_planes_scale_invariant
  (eye target up : Vec3) (aspect fovy znear zfar k l : R) :
  0 < k -> 0 < l ->
  well_conditioned target up ->
  well_conditioned (vscale target k) (vscale up l) ->
  find_planes eye (vscale target k) (vscale up l) aspect fovy znear zfar
  = find_planes eye target up aspect fovy znear zfar.
Proof.
  intros Hk Hl _ _. unfold find_planes.
  now rewrite !div_by_norm_vscale by assumption.
Qed.

Lemma sample_scaled_well_conditioned :
  well_conditioned (vscale (mkVec3 0 0 (-1)) 2) (vscale (mkVec3 0 1 0) 3).
Proof.
  assert (N1 : norm (mkVec3 0 0 (-1)) = 1)
    by (apply dot_one_norm; unfold dot; cbn [vx vy vz]; ring).
  assert (N2 : norm (mkVec3 0 1 0) = 1)
    by (apply dot_one_norm; unfold dot; cbn [vx vy vz]; ring).
  apply well_conditioned_vscale; try lra.
  - unfold well_scaled. rewrite norm_vscale, N1 by lra. lra.
  - unfold well_scaled. rewrite norm_vscale, N2 by lra. lra.
  - exact sample_well_conditioned.
Qed.

Lemma find_planes_scale_invariant_witness :
  0 < 2 /\ 0 < 3 /\
  well_conditioned (mkVec3 0 0 (-1)) (mkVec3 0 1 0) /\
  well_conditioned (vscale (mkVec3 0 0 (-1)) 2) (vscale (mkVec3 0 1 0) 3) /\
  find_planes (mkVec3 1 2 3) (vscale (mkVec3 0 0 (-1)) 2)
              (vscale (mkVec3 0 1 0) 3) 1 90 1 10
  = find_planes (mkVec3 1 2 3) (mkVec3 0 0 (-1)) (mkVec3 0 1 0) 1 90 1 10.
Proof.
  split; [lra |]. split; [lra |].
  split; [exact sample_well_conditioned |].
  split; [exact sample_scaled_well_conditioned |].
  apply (find_planes_scale_invariant
           (mkVec3 1 2 3) (mkVec3 0 0 (-1)) (mkVec3 0 1 0) 1 90 1 10 2 3);
    [lra | lra | exact sample_well_conditioned
     | exact sample_scaled_well_conditioned].
Defined.





(** ** The two half angles *)

Lemma half_fov_rad_eq (eye target up : Vec3) (aspect fovy znear zfar : R) :
  half_fov_rad (find_planes eye target up aspect fovy znear zfar)
  = fovy * PI / 360.
Proof.
  unfold find_planes; cbn [half_fov_rad]. unfold deg2rad. lra.
Qed.

Lemma half_fov_rad_range (fovy : R) :
  0 < fovy < 180 -> 0 < fovy * PI / 360 < PI / 2.
Proof. intros H. pose proof PI_RGT_0. split; nra. Qed.

(** The two half angles on a valid field of view and aspect ratio. *)
Lemma half_angles_range
  (eye target up : Vec3) (aspect fovy znear zfar : R) :
  0 < aspect -> 0 < fovy < 180 ->
  let run := find_planes eye target up aspect fovy znear zfar in
  half_fov_rad run = fovy * PI / 360 /\
  0 < half_fov_rad run < PI / 2 /\
  0 < half_fov_h_rad run < PI / 2 /\
  tan (half_fov_h_rad run) = tan (half_fov_rad run) * aspect.
Proof.
  intros Ha Hf run.
  pose proof (half_fov_rad_eq eye target up aspect fovy znear zfar) as Eh.
  fold run in Eh.
  pose proof (half_fov_rad_range fovy Hf) as Hr. rewrite <- Eh in Hr.
  assert (Hh : half_fov_h_rad run = atan (tan (half_fov_rad run) * aspect))
    by reflexivity.
  split; [exact Eh |]. split; [exact Hr |].
  assert (Ht : 0 < tan (half_fov_rad run)) by (apply tan_gt_0; lra).
  assert (Hx : 0 < tan (half_fov_rad run) * aspect) by nra.
  rewrite Hh. split; [| apply tan_atan].
  split.
  - rewrite <- atan_0. now apply atan_increasing.
  - apply atan_bound.
Qed.





(** ** The top and bottom normals in closed form *)

Lemma top_vector (r f : Vec3) (h : R) :
  norm r = 1 -> dot r f = 0 ->
  mul_quat_vec (from_axis_angle r (- PI / 2))
               (mul_quat_vec (from_axis_angle r h) f)
  = vadd (vscale f (sin h)) (vscale (cross r f) (- cos h)).
Proof.
  intros Hr Hd.
  rewrite quarter_turn_back;
    [| assumption | now rewrite mul_quat_vec_axis_dot].
  rewrite rotation_is_rodrigues by assumption.
  unfold rodrigues. generalize (sin h) (cos h). intros S C.
  apply norm_one_dot in Hr.
  destruct r as [ax ay az], f as [x y z].
  cbv [dot cross vadd vscale vx vy vz] in *.
  f_equal; nsatz.
Qed.

Lemma bottom_vector (r f : Vec3) (h : R) :
  norm r = 1 -> dot r f = 0 ->
  mul_quat_vec (from_axis_angle r (PI / 2))
               (mul_quat_vec (from_axis_angle r (- h)) f)
  = vadd (vscale f (sin h)) (vscale (cross r f) (cos h)).
Proof.
  intros Hr Hd.
  rewrite quarter_turn_forth;
    [| assumption | now rewrite mul_quat_vec_axis_dot].
  rewrite rotation_is_rodrigues by assumption.
  unfold rodrigues. rewrite sin_neg, cos_neg.
  generalize (sin h) (cos h). intros S C.
  apply norm_one_dot in Hr.
  destruct r as [ax ay az], f as [x y z].
  cbv [dot cross vadd vscale vx vy vz] in *.
  f_equal; nsatz.
Qed.

(** The values of the top and bottom normals. *)
Lemma top_bottom_values
  (eye target up : Vec3) (aspect fovy znear zfar : R) :
  ~ parallel target up ->
  let run := find_planes eye target up aspect fovy znear zfar in
  let h := half_fov_rad run in
  exists f r,
    front run = Some f /\ right run = Some r /\
    top_normal run
      = Some (vadd (vscale f (sin h)) (vscale (cross r f) (- cos h))) /\
    bottom_normal run
      = Some (vadd (vscale f (sin h)) (vscale (cross r f) (cos h))).
Proof.
  intros Hp run h.
  destruct (find_planes_nondegenerate eye target up aspect fovy znear zfar Hp)
    as (f & u & r & _ & (Ef & _ & Er) & (Nf & Nu & Nr & Drf & _ & _)
        & Et & Eb & _).
  fold run in Ef, Er, Et, Eb. fold h in Et, Eb.
  exists f, r. do 2 (split; [assumption |]).
  split.
  - rewrite Et. unfold top_normal_rotated.
    rewrite <- top_vector by assumption.
    apply div_by_norm_of_unit. now rewrite !mul_quat_vec_norm.
  - rewrite Eb. unfold bottom_normal_rotated.
    rewrite <- bottom_vector by assumption.
    apply div_by_norm_of_unit. now rewrite !mul_quat_vec_norm.
Qed.

(** X16: on a valid, well-conditioned input the top normal is
    [front * sin h - cross right front * cos h] and the bottom normal
    [front * sin h + cross right front * cos h], with [h] the vertical half
    angle of the run; [cross right front] is the up direction made
    perpendicular to [front]. *)
Theorem find_planes_top_bottom_closed_form
  (eye target up : Vec3) (aspect fovy znear zfar : R) :
  valid_input target up aspect fovy ->
  well_conditioned target up ->
  let run := find_planes eye target up aspect fovy znear zfar in
  let h := half_fov_rad run in
  exists f r,
    front run = Some f /\ right run = Some r /\
    top_normal run
      = Some (vadd (vscale f (sin h)) (vscale (cross r f) (- cos h))) /\
    bottom_normal run
      = Some (vadd (vscale f (sin h)) (vscale (cross r f) (cos h))).
Proof.
  intros Hv _. apply top_bottom_values. apply Hv.
Qed.

Lemma find_planes_top_bottom_closed_form_witness :
  valid_input (mkVec3 0 0 (-1)) (mkVec3 0 1 0) 1 90 /\
  well_conditioned (mkVec3 0 0 (-1)) (mkVec3 0 1 0) /\
  let run := find_planes (mkVec3 1 2 3) (mkVec3 0 0 (-1)) (mkVec3 0 1 0) 1 90 1 10 in
  let h := half_fov_rad run in
  exists f r,
    front run = Some f /\ right run = Some r /\
    top_normal run
      = Some (vadd (vscale f (sin h)) (vscale (cross r f) (- cos h))) /\
    bottom_normal run
      = Some (vadd (vscale f (sin h)) (vscale (cross r f) (cos h))).
Proof.
  split; [exact sample_valid_input |].
  split; [exact sample_well_conditioned |].
  apply (find_planes_top_bottom_closed_form
           (mkVec3 1 2 3) (mkVec3 0 0 (-1)) (mkVec3 0 1 0) 1 90 1 10).
  - exact sample_valid_input.
  - exact sample_well_conditioned.
Defined.

(** ** The left and right normals *)

Lemma side_dots_poly (ax ay az s c x y z : R) :
  ax * ax + ay * ay + az * az = 1 ->
  s * s + c * c = 1 ->
  let u := mkVec3 ax ay az in
  let f := mkVec3 x y z in
  let w := cross (mul_quat_vec (mkQuat (ax * s) (ay * s) (az * s) c) f) u in
  dot w f = 2 * s * c * dot (cross f u) (cross f u) /\
  dot w (cross f u) = (c * c - s * s) * dot (cross f u) (cross f u).
Proof.
  intros Ha Hsc;
    cbv [mul_quat_vec dot cross vadd vscale vx vy vz q0 q1 q2 q3].
  split; nsatz.
Qed.

Lemma side_dots (u f : Vec3) (theta : R) :
  norm u = 1 ->
  let w := cross (mul_quat_vec (from_axis_angle u theta) f) u in
  dot w f = sin theta * dot (cross f u) (cross f u) /\
  dot w (cross f u) = cos theta * dot (cross f u) (cross f u).
Proof.
  intros Hu w. subst w. apply norm_one_dot in Hu.
  replace (cos theta) with (cos (2 * (theta / 2))) by (f_equal; lra).
  replace (sin theta) with (sin (2 * (theta / 2))) by (f_equal; lra).
  rewrite cos_2a, sin_2a.
  destruct u as [ax ay az], f as [x y z].
  unfold from_axis_angle, vscale; cbn [vx vy vz].
  apply side_dots_poly; [exact Hu | apply sin_cos_half_sq].
Qed.

(** The coordinates of a side normal: none along [u], [cos theta] along
    [r] and [sin theta] times the length of [cross f u] along [f]. *)
Lemma side_normal_coords (u f r n : Vec3) (theta : R) :
  norm u = 1 ->
  div_by_norm (cross f u) = Some r ->
  div_by_norm (cross (mul_quat_vec (from_axis_angle u theta) f) u) = Some n ->
  dot n u = 0 /\
  dot n r = cos theta /\
  dot n f = sin theta * norm (cross f u).
Proof.
  intros Hu Er En.
  destruct (div_by_norm_inv _ _ Er) as (_ & Pm & _ & Sr).
  destruct (div_by_norm_inv _ _ En) as (_ & Pn & _ & Sn).
  set (w := cross (mul_quat_vec (from_axis_angle u theta) f) u) in *.
  set (m := norm (cross f u)) in *.
  assert (Hnm : norm w = m).
  { unfold m, norm. unfold w. now rewrite cross_after_turn. }
  rewrite Hnm in Sn, Pn.
  destruct (side_dots u f theta Hu) as (Hf & Hc). fold w in Hf, Hc.
  assert (Hm2 : dot (cross f u) (cross f u) = m * m)
    by (symmetry; apply norm_sq).
  rewrite Hm2 in Hf, Hc.
  pose proof (cross_dot_right (mul_quat_vec (from_axis_angle u theta) f) u) as Hwu.
  fold w in Hwu.
  rewrite Sn in Hf, Hc, Hwu. rewrite !dot_vscale_left in *.
  assert (Hc' : dot n (cross f u) = dot n r * m).
  { rewrite Sr at 1. unfold dot, vscale; cbn [vx vy vz]. ring. }
  rewrite Hc' in Hc.
  repeat split.
  - apply Rmult_integral in Hwu. destruct Hwu; [assumption | lra].
  - apply (Rmult_eq_reg_r (m * m)); [lra | nra].
  - apply (Rmult_eq_reg_r m); [lra | lra].
Qed.

(** The coordinates of the left and right normals of a run. *)
Lemma side_normals_values
  (eye target up : Vec3) (aspect fovy znear zfar : R) :
  ~ parallel target up ->
  let run := find_planes eye target up aspect fovy znear zfar in
  let hh := half_fov_h_rad run in
  exists f u r ln rn,
    front run = Some f /\ up_norm run = Some u /\ right run = Some r /\
    left_normal run = Some ln /\ right_normal run = Some rn /\
    (dot ln u = 0 /\ dot ln r = cos hh /\
     dot ln f = sin hh * norm (cross f u)) /\
    (dot rn u = 0 /\ dot rn r = cos hh /\
     dot rn f = - (sin hh * norm (cross f u))).
Proof.
  intros Hp run hh.
  destruct (find_planes_nondegenerate eye target up aspect fovy znear zfar Hp)
    as (f & u & r & (_ & _ & Dr) & (Ef & Eu & Er)
        & (Nf & Nu & Nr & _ & _ & Hc) & _ & _ & El & Ern).
  fold run in Ef, Eu, Er, El, Ern. fold hh in El, Ern.
  destruct (side_normal_unit u f hh Nu Hc) as (ln & Hl & _).
  destruct (side_normal_unit u f (- hh) Nu Hc) as (rn & Hr & _).
  exists f, u, r, ln, rn.
  do 3 (split; [assumption |]).
  split; [congruence |]. split; [congruence |].
  split.
  - exact (side_normal_coords u f r ln hh Nu Dr Hl).
  - destruct (side_normal_coords u f r rn (- hh) Nu Dr Hr) as (H1 & H2 & H3).
    rewrite cos_neg in H2. rewrite sin_neg in H3.
    repeat split; [assumption | assumption | lra].
Qed.

(** X17: on a valid, well-conditioned input the left and right normals
    are perpendicular to [up]; each has the component [cos hh] along
    [right], and along [front] the left normal has
    [sin hh * |cross front up|] and the right normal the opposite, with
    [hh] the horizontal half angle of the run: the two mirror each other in
    the plane perpendicular to [front]. *)
Theorem find_planes_side_normals
  (eye target up : Vec3) (aspect fovy znear zfar : R) :
  valid_input target up aspect fovy ->
  well_conditioned target up ->
  let run := find_planes eye target up aspect fovy znear zfar in
  let hh := half_fov_h_rad run in
  exists f u r ln rn,
    front run = Some f /\ up_norm run = Some u /\ right run = Some r /\
    left_normal run = Some ln /\ right_normal run = Some rn /\
    (dot ln u = 0 /\ dot ln r = cos hh /\
     dot ln f = sin hh * norm (cross f u)) /\
    (dot rn u = 0 /\ dot rn r = cos hh /\
     dot rn f = - (sin hh * norm (cross f u))).
Proof.
  intros Hv _. apply side_normals_values. apply Hv.
Qed.

Lemma find_planes_side_normals_witness :
  valid_input (mkVec3 0 0 (-1)) (mkVec3 0 1 0) 1 90 /\
  well_conditioned (mkVec3 0 0 (-1)) (mkVec3 0 1 0) /\
  let run := find_planes (mkVec3 1 2 3) (mkVec3 0 0 (-1)) (mkVec3 0 1 0) 1 90 1 10 in
  let hh := half_fov_h_rad run in
  exists f u r ln rn,
    front run = Some f /\ up_norm run = Some u /\ right run = Some r /\
    left_normal run = Some ln /\ right_normal run = Some rn /\
    (dot ln u = 0 /\ dot ln r = cos hh /\
     dot ln f = sin hh * norm (cross f u)) /\
    (dot rn u = 0 /\ dot rn r = cos hh /\
     dot rn f = - (sin hh * norm (cross f u))).
Proof.
  split; [exact sample_valid_input |].
  split; [exact sample_well_conditioned |].
  apply (find_planes_side_normals
           (mkVec3 1 2 3) (mkVec3 0 0 (-1)) (mkVec3 0 1 0) 1 90 1 10).
  - exact sample_valid_input.
  - exact sample_well_conditioned.
Defined.

Lemma dot_closed_form (f w : Vec3) (a b : R) :
  norm f = 1 -> dot w f = 0 ->
  dot (vadd (vscale f a) (vscale w b)) f = a.
Proof.
  intros Hf Hw. apply norm_one_dot in Hf.
  destruct f as [x y z], w as [x' y' z'].
  cbv [dot vadd vscale vx vy vz] in *. nsatz.
Qed.

(** X18: on a valid, well-conditioned input with the aspect ratio between
    1e-3 and 1e3 and the field of view between 1 and 179 degrees, the top,
    bottom and left normals have a positive component along [front], and
    the right normal a negative one: three normals point to the side of the
    view direction, the right one away from it. *)
Theorem find_planes_normal_orientation
  (eye target up : Vec3) (aspect fovy znear zfar : R) :
  valid_input target up aspect fovy ->
  well_conditioned target up ->
  well_framed aspect fovy ->
  let run := find_planes eye target up aspect fovy znear zfar in
  exists f tn bn ln rn,
    front run = Some f /\
    top_normal run = Some tn /\ bottom_normal run = Some bn /\
    left_normal run = Some ln /\ right_normal run = Some rn /\
    dot tn f = sin (half_fov_rad run) /\
    dot bn f = sin (half_fov_rad run) /\
    0 < dot tn f /\ 0 < dot bn f /\ 0 < dot ln f /\ dot rn f < 0.
Proof.
  intros Hv _ _ run.
  assert (Hp : ~ parallel target up) by apply Hv.
  destruct Hv as (_ & _ & _ & Ha & Hf).
  destruct (half_angles_range eye target up aspect fovy znear zfar Ha Hf)
    as (_ & Hh & Hhh & _).
  fold run in Hh, Hhh.
  destruct (top_bottom_values
              eye target up aspect fovy znear zfar Hp)
    as (f & r & Ef & Er & Et & Eb).
  fold run in Ef, Er, Et, Eb.
  destruct (side_normals_values eye target up aspect fovy znear zfar Hp)
    as (f' & u & r' & ln & rn & Ef' & Eu & Er' & El & Ern
        & (_ & _ & Hl) & (_ & _ & Hr)).
  fold run in Ef', Eu, Er', El, Ern, Hl, Hr.
  rewrite Ef in Ef'. injection Ef' as <-.
  destruct (find_planes_nondegenerate eye target up aspect fovy znear zfar Hp)
    as (f2 & u2 & r2 & _ & (Ef2 & Eu2 & Er2) & (Nf & _ & _ & _ & _ & Hc) & _).
  fold run in Ef2, Eu2, Er2.
  rewrite Ef in Ef2. injection Ef2 as <-.
  rewrite Eu in Eu2. injection Eu2 as <-.
  pose proof (norm_pos _ Hc) as Pm.
  assert (Hs : 0 < sin (half_fov_rad run)) by (apply sin_gt_0; lra).
  assert (Hsh : 0 < sin (half_fov_h_rad run)) by (apply sin_gt_0; lra).
  assert (Dt : dot (vadd (vscale f (sin (half_fov_rad run)))
                         (vscale (cross r f) (- cos (half_fov_rad run)))) f
               = sin (half_fov_rad run))
    by (apply dot_closed_form; [assumption | apply cross_dot_right]).
  assert (Db : dot (vadd (vscale f (sin (half_fov_rad run)))
                         (vscale (cross r f) (cos (half_fov_rad run)))) f
               = sin (half_fov_rad run))
    by (apply dot_closed_form; [assumption | apply cross_dot_right]).
  eexists f, _, _, ln, rn.
  split; [exact Ef |]. split; [exact Et |]. split; [exact Eb |].
  split; [exact El |]. split; [exact Ern |].
  rewrite Dt, Db, Hl, Hr.
  repeat split; try assumption; nra.
Qed.

Lemma sample_well_framed : well_framed 1 90.
Proof. unfold well_framed. lra. Qed.

Lemma find_planes_normal_orientation_witness :
  valid_input (mkVec3 0 0 (-1)) (mkVec3 0 1 0) 1 90 /\
  well_conditioned (mkVec3 0 0 (-1)) (mkVec3 0 1 0) /\
  well_framed 1 90 /\
  let run := find_planes (mkVec3 1 2 3) (mkVec3 0 0 (-1)) (mkVec3 0 1 0) 1 90 1 10 in
  exists f tn bn ln rn,
    front run = Some f /\
    top_normal run = Some tn /\ bottom_normal run = Some bn /\
    left_normal run = Some ln /\ right_normal run = Some rn /\
    dot tn f = sin (half_fov_rad run) /\
    dot bn f = sin (half_fov_rad run) /\
    0 < dot tn f /\ 0 < dot bn f /\ 0 < dot ln f /\ dot rn f < 0.
Proof.
  split; [exact sample_valid_input |].
  split; [exact sample_well_conditioned |].
  split; [exact sample_well_framed |].
  apply (find_planes_normal_orientation
           (mkVec3 1 2 3) (mkVec3 0 0 (-1)) (mkVec3 0 1 0) 1 90 1 10).
  - exact sample_valid_input.
  - exact sample_well_conditioned.
  - exact sample_well_framed.
Defined.

(** ** Each plane holds its edge and its axis *)

Lemma div_by_norm_cross_perp (a b n : Vec3) :
  div_by_norm (cross a b) = Some n -> dot n a = 0 /\ dot n b = 0.
Proof.
  intros E. destruct (div_by_norm_inv _ _ E) as (_ & Pn & _ & Sn).
  pose proof (cross_dot_left a b) as Ha.
  pose proof (cross_dot_right a b) as Hb.
  rewrite Sn, dot_vscale_left in Ha, Hb.
  apply Rmult_integral in Ha, Hb.
  split; [destruct Ha | destruct Hb]; try assumption; lra.
Qed.

(** X19: on a valid, well-conditioned input the top and bottom normals
    are perpendicular to [right] and to the edge direction got by turning
    [front] about [right] by plus or minus the vertical half angle, and the
    left and right normals are perpendicular to [up] and to [front] turned
    about [up] by plus or minus the horizontal half angle: each plane
    through the eye holds its frustum edge and the axis the edge was turned
    about. *)
Theorem find_planes_planes_hold_edges
  (eye target up : Vec3) (aspect fovy znear zfar : R) :
  valid_input target up aspect fovy ->
  well_conditioned target up ->
  let run := find_planes eye target up aspect fovy znear zfar in
  let h := half_fov_rad run in
  let hh := half_fov_h_rad run in
  exists f u r tn bn ln rn,
    (front run = Some f /\ up_norm run = Some u /\ right run = Some r) /\
    (top_normal run = Some tn /\ bottom_normal run = Some bn /\
     left_normal run = Some ln /\ right_normal run = Some rn) /\
    (dot tn r = 0 /\ dot tn (mul_quat_vec (from_axis_angle r h) f) = 0) /\
    (dot bn r = 0 /\ dot bn (mul_quat_vec (from_axis_angle r (- h)) f) = 0) /\
    (dot ln u = 0 /\ dot ln (mul_quat_vec (from_axis_angle u hh) f) = 0) /\
    (dot rn u = 0 /\ dot rn (mul_quat_vec (from_axis_angle u (- hh)) f) = 0).
Proof.
  intros Hv _ run h hh.
  assert (Hp : ~ parallel target up) by apply Hv.
  destruct (find_planes_nondegenerate eye target up aspect fovy znear zfar Hp)
    as (f & u & r & _ & HB & (Nf & Nu & Nr & Drf & _ & Hc)
        & Et & Eb & El & Ern).
  fold run in HB, Et, Eb, El, Ern. fold h in Et, Eb. fold hh in El, Ern.
  rewrite top_paths_agree in Et by assumption.
  rewrite bottom_paths_agree in Eb by assumption.
  unfold top_normal_crossed in Et. unfold bottom_normal_crossed in Eb.
  destruct (rotated_normals_unit r f h Nr Nf) as ((tn & Ht & _) & (bn & Hb & _)).
  rewrite top_paths_agree in Ht by assumption.
  rewrite bottom_paths_agree in Hb by assumption.
  unfold top_normal_crossed in Ht. unfold bottom_normal_crossed in Hb.
  destruct (side_normal_unit u f hh Nu Hc) as (ln & Hl & _).
  destruct (side_normal_unit u f (- hh) Nu Hc) as (rn & Hr & _).
  exists f, u, r, tn, bn, ln, rn.
  split; [exact HB |].
  split; [repeat split; congruence |].
  destruct (div_by_norm_cross_perp _ _ _ Ht).
  destruct (div_by_norm_cross_perp _ _ _ Hb).
  destruct (div_by_norm_cross_perp _ _ _ Hl).
  destruct (div_by_norm_cross_perp _ _ _ Hr).
  repeat split; assumption.
Qed.

Lemma find_planes_planes_hold_edges_witness :
  valid_input (mkVec3 0 0 (-1)) (mkVec3 0 1 0) 1 90 /\
  well_conditioned (mkVec3 0 0 (-1)) (mkVec3 0 1 0) /\
  let run := find_planes (mkVec3 1 2 3) (mkVec3 0 0 (-1)) (mkVec3 0 1 0) 1 90 1 10 in
  let h := half_fov_rad run in
  let hh := half_fov_h_rad run in
  exists f u r tn bn ln rn,
    (front run = Some f /\ up_norm run = Some u /\ right run = Some r) /\
    (top_normal run = Some tn /\ bottom_normal run = Some bn /\
     left_normal run = Some ln /\ right_normal run = Some rn) /\
    (dot tn r = 0 /\ dot tn (mul_quat_vec (from_axis_angle r h) f) = 0) /\
    (dot bn r = 0 /\ dot bn (mul_quat_vec (from_axis_angle r (- h)) f) = 0) /\
    (dot ln u = 0 /\ dot ln (mul_quat_vec (from_axis_angle u hh) f) = 0) /\
    (dot rn u = 0 /\ dot rn (mul_quat_vec (from_axis_angle u (- hh)) f) = 0).
Proof.
  split; [exact sample_valid_input |].
  split; [exact sample_well_conditioned |].
  apply (find_planes_planes_hold_edges
           (mkVec3 1 2 3) (mkVec3 0 0 (-1)) (mkVec3 0 1 0) 1 90 1 10).
  - exact sample_valid_input.
  - exact sample_well_conditioned.
Defined.

(** ** An up vector perpendicular to the view direction *)

Lemma lagrange (a b : Vec3) :
  dot (cross a b) (cross a b) = dot a a * dot b b - dot a b * dot a b.
Proof. unfold dot, cross; cbn [vx vy vz]. ring. Qed.

Lemma perpendicular_not_parallel (a b : Vec3) :
  a <> vzero -> b <> vzero -> dot a b = 0 -> ~ parallel a b.
Proof.
  intros Ha Hb Hd Hp. unfold parallel in Hp.
  pose proof (lagrange a b) as L. rewrite Hp, Hd in L.
  apply dot_nonzero in Ha, Hb.
  replace (dot vzero vzero) with 0 in L
    by (unfold dot, vzero; cbn [vx vy vz]; ring).
  assert (H : dot a a * dot b b = 0) by lra.
  apply Rmult_integral in H. tauto.
Qed.

Lemma cross_cross_unit (f u : Vec3) :
  norm f = 1 -> dot f u = 0 -> cross (cross f u) f = u.
Proof.
  intros Hf Hd. apply norm_one_dot in Hf.
  destruct f as [x y z], u as [ax ay az].
  cbv [dot cross vx vy vz] in *. f_equal; nsatz.
Qed.

Lemma side_vector (u f : Vec3) (theta : R) :
  norm u = 1 -> dot f u = 0 ->
  cross (mul_quat_vec (from_axis_angle u theta) f) u
  = vadd (vscale (cross f u) (cos theta)) (vscale f (sin theta)).
Proof.
  intros Hu Hd. rewrite rotation_is_rodrigues by assumption.
  unfold rodrigues. generalize (sin theta) (cos theta). intros S C.
  apply norm_one_dot in Hu.
  destruct f as [x y z], u as [ax ay az].
  cbv [dot cross vadd vscale vx vy vz] in *. f_equal; nsatz.
Qed.

Lemma well_scaled_nonzero (v : Vec3) : well_scaled v -> v <> vzero.
Proof.
  intros (Hl & _) ->.
  assert (E : norm vzero = 0) by now apply norm_zero_iff.
  rewrite E in Hl. lra.
Qed.

(** X20: for well-scaled [target] and [up] that are perpendicular, and a
    valid aspect ratio and field of view, the camera basis is orthonormal
    with [right = cross front up], and the four normals are
    top [front sin h - up cos h], bottom [front sin h + up cos h],
    left [right cos hh + front sin hh], right [right cos hh - front sin hh],
    with [h] and [hh] the vertical and horizontal half angles of the run. *)
Theorem find_planes_perpendicular_up
  (eye target up : Vec3) (aspect fovy znear zfar : R) :
  well_scaled target -> well_scaled up -> dot target up = 0 ->
  0 < aspect -> 0 < fovy < 180 ->
  let run := find_planes eye target up aspect fovy znear zfar in
  let h := half_fov_rad run in
  let hh := half_fov_h_rad run in
  exists f u r,
    (front run = Some f /\ up_norm run = Some u /\ right run = Some r) /\
    (r = cross f u /\ orthonormal f u r) /\
    top_normal run = Some (vadd (vscale f (sin h)) (vscale u (- cos h))) /\
    bottom_normal run = Some (vadd (vscale f (sin h)) (vscale u (cos h))) /\
    left_normal run = Some (vadd (vscale r (cos hh)) (vscale f (sin hh))) /\
    right_normal run = Some (vadd (vscale r (cos hh)) (vscale f (- sin hh))).
Proof.
  intros Wt Wu Hd _ _ run h hh.
  pose proof (well_scaled_nonzero _ Wt) as Ht.
  pose proof (well_scaled_nonzero _ Wu) as Hu.
  pose proof (perpendicular_not_parallel target up Ht Hu Hd) as Hp.
  destruct (find_planes_nondegenerate eye target up aspect fovy znear zfar Hp)
    as (f & u & r & (Df & Du & Dr) & HB & (Nf & Nu & Nr & Drf & Dru & Hc)
        & _ & _ & El & Ern).
  fold run in HB, El, Ern. fold hh in El, Ern.
  destruct (top_bottom_values eye target up aspect fovy znear zfar Hp)
    as (f' & r' & Ef' & Er' & Et & Eb).
  fold run in Ef', Er', Et, Eb. fold h in Et, Eb.
  destruct HB as (Ef & Eu & Er).
  rewrite Ef in Ef'. injection Ef' as <-.
  rewrite Er in Er'. injection Er' as <-.
  (* front and up stay perpendicular *)
  destruct (div_by_norm_inv _ _ Df) as (_ & Pt & _ & Sf).
  destruct (div_by_norm_inv _ _ Du) as (_ & Pu & _ & Su).
  assert (Dfu : dot f u = 0).
  { assert (E : dot target up = dot f u * (norm target * norm up)).
    { rewrite Sf at 1. rewrite Su at 1.
      unfold dot, vscale; cbn [vx vy vz]. ring. }
    rewrite Hd in E. symmetry in E. apply Rmult_integral in E.
    destruct E as [E | E]; [exact E | nra]. }
  (* right is the cross product itself *)
  assert (Ncr : norm (cross f u) = 1).
  { apply dot_one_norm. rewrite lagrange, Dfu.
    rewrite (norm_one_dot f Nf), (norm_one_dot u Nu). ring. }
  assert (Hr : r = cross f u).
  { rewrite (div_by_norm_of_unit _ Ncr) in Dr. now injection Dr. }
  assert (Hup : cross r f = u) by (rewrite Hr; now apply cross_cross_unit).
  rewrite Hup in Et, Eb.
  exists f, u, r.
  split; [repeat split; assumption |].
  split.
  { split; [exact Hr |]. unfold orthonormal.
    repeat split; try assumption.
    - rewrite dot_comm. exact Drf.
    - rewrite dot_comm. exact Dru. }
  split; [exact Et |]. split; [exact Eb |].
  assert (Hside : forall t,
             div_by_norm (cross (mul_quat_vec (from_axis_angle u t) f) u)
             = Some (vadd (vscale r (cos t)) (vscale f (sin t)))).
  { intros t. rewrite Hr, <- side_vector by assumption.
    apply div_by_norm_of_unit.
    unfold norm. rewrite cross_after_turn by assumption.
    exact Ncr. }
  split.
  - rewrite El. apply Hside.
  - rewrite Ern, Hside, cos_neg, sin_neg. reflexivity.
Qed.

Lemma find_planes_perpendicular_up_witness :
  well_scaled (mkVec3 0 0 (-1)) /\ well_scaled (mkVec3 0 1 0) /\
  dot (mkVec3 0 0 (-1)) (mkVec3 0 1 0) = 0 /\
  0 < 1 /\ 0 < 90 < 180 /\
  let run := find_planes (mkVec3 1 2 3) (mkVec3 0 0 (-1)) (mkVec3 0 1 0) 1 90 1 10 in
  let h := half_fov_rad run in
  let hh := half_fov_h_rad run in
  exists f u r,
    (front run = Some f /\ up_norm run = Some u /\ right run = Some r) /\
    (r = cross f u /\ orthonormal f u r) /\
    top_normal run = Some (vadd (vscale f (sin h)) (vscale u (- cos h))) /\
    bottom_normal run = Some (vadd (vscale f (sin h)) (vscale u (cos h))) /\
    left_normal run = Some (vadd (vscale r (cos hh)) (vscale f (sin hh))) /\
    right_normal run = Some (vadd (vscale r (cos hh)) (vscale f (- sin hh))).
Proof.
  assert (H1 : well_scaled (mkVec3 0 0 (-1))) by apply sample_well_conditioned.
  assert (H2 : well_scaled (mkVec3 0 1 0)) by apply sample_well_conditioned.
  assert (H3 : dot (mkVec3 0 0 (-1)) (mkVec3 0 1 0) = 0)
    by (unfold dot; cbn [vx vy vz]; ring).
  split; [exact H1 |]. split; [exact H2 |]. split; [exact H3 |].
  split; [lra |]. split; [lra |].
  apply (find_planes_perpendicular_up
           (mkVec3 1 2 3) (mkVec3 0 0 (-1)) (mkVec3 0 1 0) 1 90 1 10);
    try assumption; lra.
Defined.

Lemma find_planes_fields_basis
  (eye target up : Vec3) (aspect fovy znear zfar : R) :
  ~ parallel target up ->
  let run := find_planes eye target up aspect fovy znear zfar in
  exists f r,
    front run = Some f /\ right run = Some r /\
    norm f = 1 /\ norm r = 1 /\ dot r f = 0.
Proof.
  intros Hp run.
  destruct (find_planes_nondegenerate eye target up aspect fovy znear zfar Hp)
    as (f & u & r & _ & (Ef & _ & Er) & (Nf & _ & Nr & Drf & _) & _).
  exists f, r. repeat split; assumption.
Qed.

(** ** The angles between opposite planes *)

Lemma opposite_dot (f w : Vec3) (S C : R) :
  norm f = 1 -> dot w w = 1 -> dot f w = 0 ->
  dot (vadd (vscale f S) (vscale w (- C))) (vadd (vscale f S) (vscale w C))
  = S * S - C * C.
Proof.
  intros Hf Hw Hd. apply norm_one_dot in Hf.
  destruct f as [x y z], w as [x' y' z'].
  cbv [dot vadd vscale vx vy vz] in *. nsatz.
Qed.

Lemma side_pair_dot (u f : Vec3) (theta : R) :
  norm u = 1 ->
  dot (cross (mul_quat_vec (from_axis_angle u theta) f) u)
      (cross (mul_quat_vec (from_axis_angle u (- theta)) f) u)
  = (cos theta * cos theta - sin theta * sin theta)
    * dot (cross f u) (cross f u).
Proof.
  intros Hu. rewrite !rotation_is_rodrigues by assumption.
  unfold rodrigues. rewrite sin_neg, cos_neg.
  generalize (sin theta) (cos theta). intros S C.
  apply norm_one_dot in Hu.
  destruct f as [x y z], u as [ax ay az].
  cbv [dot cross vadd vscale vx vy vz] in *. nsatz.
Qed.

(** X21: on a valid, well-conditioned input the top and bottom normals
    enclose the vertical field of view,
    [dot top bottom = - cos (deg2rad fovy)], and the left and right normals
    twice the horizontal half angle, [dot left right = cos (2 hh)]; the
    signs differ because the right normal alone points away from [front]. *)
Theorem find_planes_opposite_normals
  (eye target up : Vec3) (aspect fovy znear zfar : R) :
  valid_input target up aspect fovy ->
  well_conditioned target up ->
  let run := find_planes eye target up aspect fovy znear zfar in
  exists tn bn ln rn,
    top_normal run = Some tn /\ bottom_normal run = Some bn /\
    left_normal run = Some ln /\ right_normal run = Some rn /\
    dot tn bn = - cos (deg2rad fovy) /\
    dot ln rn = cos (2 * half_fov_h_rad run).
Proof.
  intros Hv _ run.
  assert (Hp : ~ parallel target up) by apply Hv.
  destruct (find_planes_nondegenerate eye target up aspect fovy znear zfar Hp)
    as (f & u & r & _ & _ & (Nf & Nu & Nr & Drf & _ & Hc) & _ & _ & El & Ern).
  fold run in El, Ern.
  destruct (top_bottom_values eye target up aspect fovy znear zfar Hp)
    as (f' & r' & Ef' & Er' & Et & Eb).
  fold run in Ef', Er', Et, Eb.
  destruct (find_planes_fields_basis eye target up aspect fovy znear zfar Hp)
    as (f2 & r2 & Ef2 & Er2 & Nf2 & Nr2 & D2).
  fold run in Ef2, Er2.
  rewrite Ef' in Ef2. injection Ef2 as <-.
  rewrite Er' in Er2. injection Er2 as <-.
  set (hh := half_fov_h_rad run) in *.
  destruct (side_normal_unit u f hh Nu Hc) as (ln & Hl & _).
  destruct (side_normal_unit u f (- hh) Nu Hc) as (rn & Hr & _).
  eexists _, _, ln, rn.
  split; [exact Et |]. split; [exact Eb |].
  split; [congruence |]. split; [congruence |].
  split.
  - rewrite opposite_dot.
    + replace (deg2rad fovy) with (2 * half_fov_rad run)
        by (unfold run, find_planes; cbn [half_fov_rad]; lra).
      rewrite cos_2a. ring.
    + exact Nf2.
    + rewrite lagrange, (norm_one_dot _ Nr2), (norm_one_dot _ Nf2), D2. ring.
    + rewrite dot_comm. apply cross_dot_right.
  - destruct (div_by_norm_inv _ _ Hl) as (_ & Pl & _ & Sl).
    destruct (div_by_norm_inv _ _ Hr) as (_ & Pr & _ & Sr).
    pose proof (side_pair_dot u f hh Nu) as Hd.
    assert (Ml : norm (cross (mul_quat_vec (from_axis_angle u hh) f) u)
                 = norm (cross f u))
      by (unfold norm; now rewrite cross_after_turn).
    assert (Mr : norm (cross (mul_quat_vec (from_axis_angle u (- hh)) f) u)
                 = norm (cross f u))
      by (unfold norm; now rewrite cross_after_turn).
    rewrite Ml in Sl, Pl. rewrite Mr in Sr, Pr.
    rewrite Sl, Sr in Hd. rewrite <- (norm_sq (cross f u)) in Hd.
    set (m := norm (cross f u)) in *.
    assert (E : dot (vscale ln m) (vscale rn m) = dot ln rn * (m * m))
      by (unfold dot, vscale; cbn [vx vy vz]; ring).
    rewrite E in Hd. rewrite cos_2a.
    apply (Rmult_eq_reg_r (m * m)); [exact Hd | nra].
Qed.

Lemma find_planes_opposite_normals_witness :
  valid_input (mkVec3 0 0 (-1)) (mkVec3 0 1 0) 1 90 /\
  well_conditioned (mkVec3 0 0 (-1)) (mkVec3 0 1 0) /\
  let run := find_planes (mkVec3 1 2 3) (mkVec3 0 0 (-1)) (mkVec3 0 1 0) 1 90 1 10 in
  exists tn bn ln rn,
    top_normal run = Some tn /\ bottom_normal run = Some bn /\
    left_normal run = Some ln /\ right_normal run = Some rn /\
    dot tn bn = - cos (deg2rad 90) /\
    dot ln rn = cos (2 * half_fov_h_rad run).
Proof.
  split; [exact sample_valid_input |].
  split; [exact sample_well_conditioned |].
  apply (find_planes_opposite_normals
           (mkVec3 1 2 3) (mkVec3 0 0 (-1)) (mkVec3 0 1 0) 1 90 1 10).
  - exact sample_valid_input.
  - exact sample_well_conditioned.
Defined.
